(** * Notebook cell editing of the google-colab-mcp server

    A shallow embedding of the [add_code_cell] and [edit_code_cell] cases of
    [GoogleColabMcpServer.handleCallTool] of the google-colab-mcp server:
    the encoding of a code text as the [source] array of a notebook cell,
    the in-memory edit of the parsed notebook, and the tool handlers around
    them (argument validation, download, parse, upload, error mapping). *)

From Stdlib Require Import ZArith Ascii Floats.SpecFloat.
From stdpp Require Import base tactics option list strings gmap pretty.

(** ** JavaScript strings *)

(** A string is the sequence of its code units; of these the handlers
    look at the line feed only. *)
Module Str.

(** The line feed, ['\n'] in the source. *)
Definition LF : ascii := "010"%char.
Definition newline : string := String LF "".

Definition is_LF (c : ascii) : bool := bool_decide (c = LF).

(** A string followed by one more character. *)
Definition snoc (s : string) (c : ascii) : string := s +:+ String c "".

(** [s.split('\n')]: the pieces between line feeds, in order.  The result
    always has at least one piece. *)
Fixpoint split_lines (s : string) : list string :=
  match s with
  | EmptyString => [""]
  | String c rest =>
      if is_LF c then "" :: split_lines rest
      else match split_lines rest with
           | piece :: pieces => String c piece :: pieces
           | [] => [String c ""]
           end
  end.

(** [s.endsWith('\n')]. *)
Fixpoint ends_with_newline (s : string) : bool :=
  match s with
  | EmptyString => false
  | String c EmptyString => is_LF c
  | String _ rest => ends_with_newline rest
  end.

(** [s.replace(/\n$/, '')]: the pattern has no flag, so [$] is the end
    of the input and at most the final line feed goes. *)
Fixpoint replace_final_newline (s : string) : string :=
  match s with
  | EmptyString => ""
  | String c EmptyString => if is_LF c then "" else s
  | String c rest => String c (replace_final_newline rest)
  end.

(** [parts.join('')]. *)
Definition join (parts : list string) : string :=
  foldr String.app "" parts.

(** [parts.join(sep)]. *)
Fixpoint join_with (sep : string) (parts : list string) : string :=
  match parts with
  | [] => ""
  | [p] => p
  | p :: rest => p +:+ sep +:+ join_with sep rest
  end.

End Str.

(** ** The source array of a cell (lines 362-371 and 465-473) *)

(** [source.pop()] guarded by
    [source.length > 0 && source[source.length - 1] === '\n']. *)
Definition pop_blank_line (source : list string) : list string :=
  if bool_decide (0 < length source)%nat
     && bool_decide (last source = Some Str.newline)
  then removelast source
  else source.

(** [source[lastLineIndex] = source[lastLineIndex].replace(/\n$/, '')]
    guarded by [source.length > 0]. *)
Definition strip_last_line (source : list string) : list string :=
  if bool_decide (0 < length source)%nat
  then
    let lastLineIndex := (length source - 1)%nat in
    alter Str.replace_final_newline lastLineIndex source
  else source.

(** [code.split('\n').map(line => line + '\n')], then the two clean-up
    steps. *)
Definition terminated (lines : list string) : list string :=
  (λ line, line +:+ Str.newline) <$> lines.

Definition map_lines (code : string) : list string :=
  terminated (Str.split_lines code).

Definition encode_source (code : string) : list string :=
  strip_last_line (pop_blank_line (map_lines code)).

(** ** Values of a parsed notebook *)

(** What [JSON.parse] builds.  A number is an IEEE double; no handler
    computes with the numbers of a notebook, they are only carried.  An
    object lists its own properties in insertion order. *)
#[local] Set Warnings "-register-all".
Inductive json : Type :=
| JNull
| JBool (b : bool)
| JNum (x : spec_float)
| JStr (s : string)
| JArr (items : list json)
| JObj (props : list (string * json)).

Module Obj.

(** [o[key]] on the own properties, [None] for [undefined]. *)
Fixpoint get {A} (key : string) (props : list (string * A)) : option A :=
  match props with
  | [] => None
  | (k, v) :: rest => if decide (k = key) then Some v else get key rest
  end.

(** [o[key] = v]: a present property keeps its place, a new one is
    added last. *)
Fixpoint set {A} (key : string) (v : A) (props : list (string * A))
    : list (string * A) :=
  match props with
  | [] => [(key, v)]
  | (k, v0) :: rest =>
      if decide (k = key) then (k, v) :: rest
      else (k, v0) :: set key v rest
  end.

End Obj.

(** ** Notebook documents

    The readings of a parsed notebook in which the properties are stated:
    a well-formed document is an object whose [cells] property is an
    array, and a well-formed cell an object whose [cell_type] is a
    string. *)

(** An own property of an object, [None] on any other value. *)
Definition own_prop (v : json) (key : string) : option json :=
  match v with
  | JObj props => Obj.get key props
  | _ => None
  end.

(** The names of the own properties of an object, in order. *)
Definition own_keys (v : json) : list string :=
  match v with
  | JObj props => props.*1
  | _ => []
  end.

Definition notebook_cells (notebookJson : json) : option (list json) :=
  match own_prop notebookJson "cells" with
  | Some (JArr cells) => Some cells
  | _ => None
  end.

Definition cell_kind (cell : json) : option string :=
  match own_prop cell "cell_type" with
  | Some (JStr kind) => Some kind
  | _ => None
  end.

(** ** Errors *)

(** [ErrorCode] of the MCP SDK, the members the server uses. *)
Inductive ErrorCode : Type :=
| InternalError
| InvalidParams
| InvalidRequest
| MethodNotFound.

(** [new McpError(code, message)]. *)
Record McpError : Type := mkMcpError {
  code : ErrorCode;
  message : string
}.

(** What the catch blocks read of an error of the Drive client:
    [error.message], [error.code], [error.response?.status] and
    [error.response?.data?.error?.message]. *)
Record GaxiosError : Type := mkGaxiosError {
  gaxios_message : string;
  gaxios_code : option Z;
  response_status : option Z;
  response_error_message : option string
}.

(** What can be thrown inside the [try] of a tool case. *)
Inductive exn : Type :=
| ZodError (issues : list string)
| ThrownMcpError (e : McpError)
| ThrownGaxiosError (e : GaxiosError)
| TypeError (msg : string).

Definition outcome (A : Type) : Type := exn + A.

#[global] Instance outcome_ret : MRet outcome := λ A a, inr a.
#[global] Instance outcome_bind : MBind outcome := λ A B f m,
  match m with
  | inl e => inl e
  | inr a => f a
  end.
#[global] Instance outcome_throw : MThrow exn outcome := λ A e, inl e.

(** [uploadResponse.data], with the requested fields [id] and [name]. *)
Record DriveFile : Type := mkDriveFile {
  file_id : string;
  file_name : string
}.

(** ** What the server takes from its runtime and its libraries *)

Class Platform : Type := {
  (** [JSON.parse(text)], [None] when it throws. *)
  JSON_parse : string → option json;
  (** [JSON.stringify(value, null, 2)]. *)
  JSON_stringify : json → string;
  (** A number of a notebook within a template literal. *)
  Number_toString : spec_float → string;
  (** An integer argument or an array length within a template literal. *)
  Integer_toString : Z → string;
  (** The [message] property of [new McpError(code, message)]. *)
  McpError_message : ErrorCode → string → string;
  (** The message of the issue that zod reports for [nonnegative()]. *)
  zod_nonnegative_message : string;
  (** The message of the [TypeError] for a property read on [null] or on
      [undefined]: the base as printed, then the property name. *)
  TypeError_cannot_read : string → string → string;
  (** The state of Google Drive. *)
  drive : Type;
  (** [drive.files.get({fileId, alt: 'media'}, {responseType: 'text'})]. *)
  files_get_media : string → drive → GaxiosError + string;
  (** [drive.files.update({fileId, media: {mimeType, body}, fields})]. *)
  files_update : string → string → string → drive → (GaxiosError + DriveFile) * drive
}.

(** ** Argument schemas (lines 66-76) *)

(** The records carry the fields with the types the schemas demand of
    them ([z.string()], [z.number().int()], [optional()]); the check that
    is left, [nonnegative()], is run by [parse]. *)
Record AddCodeCellArgs : Type := mkAddCodeCellArgs {
  add_notebookFileId : string;
  code_text : string;
  position : option Z
}.

Record EditCodeCellArgs : Type := mkEditCodeCellArgs {
  edit_notebookFileId : string;
  cellIndex : Z;
  newCode : string
}.

Section Server.

Context `{Platform}.

Definition AddCodeCellArgsSchema_parse (args : AddCodeCellArgs)
    : outcome AddCodeCellArgs :=
  match position args with
  | Some p =>
      if (p <? 0)%Z then mthrow (ZodError [zod_nonnegative_message])
      else mret args
  | None => mret args
  end.

Definition EditCodeCellArgsSchema_parse (args : EditCodeCellArgs)
    : outcome EditCodeCellArgs :=
  if (cellIndex args <? 0)%Z then mthrow (ZodError [zod_nonnegative_message])
  else mret args.

(** ** Reading JavaScript values *)

(** [!v]. *)
Definition falsy (v : json) : bool :=
  match v with
  | JNull | JBool false | JStr "" => true
  | JNum (S754_zero _) | JNum S754_nan => true
  | _ => false
  end.

(** [v.key] for the two names the handlers read, [cells] and
    [cell_type], which no prototype defines: an own property of an
    object, [undefined] on any other value, and a [TypeError] on [null]
    and on [undefined]. *)
Definition get_prop (v : option json) (key : string) : outcome (option json) :=
  match v with
  | None => mthrow (TypeError (TypeError_cannot_read "undefined" key))
  | Some JNull => mthrow (TypeError (TypeError_cannot_read "null" key))
  | Some (JObj props) => mret (Obj.get key props)
  | Some _ => mret None
  end.

(** [v.key = x] on an object. *)
Definition set_prop (v : json) (key : string) (x : json) : json :=
  match v with
  | JObj props => JObj (Obj.set key x props)
  | _ => v
  end.

(** A value within a template literal. *)
Fixpoint String_of (v : json) : string :=
  match v with
  | JNull => "null"
  | JBool true => "true"
  | JBool false => "false"
  | JNum x => Number_toString x
  | JStr s => s
  | JArr items =>
      Str.join_with ","
        (map (λ item, match item with JNull => "" | _ => String_of item end) items)
  | JObj _ => "[object Object]"
  end.

Definition template (v : option json) : string :=
  match v with
  | None => "undefined"
  | Some v => String_of v
  end.

(** ** The steps shared by the two cases *)

(** Step 3, [JSON.parse] within its own [try]. *)
Definition parse_failed : McpError :=
  mkMcpError InternalError
    "Failed to parse notebook content. Is it a valid .ipynb file?".

Definition parse_notebook (notebookContent : string) : outcome json :=
  match JSON_parse notebookContent with
  | Some notebookJson => mret notebookJson
  | None => mthrow (ThrownMcpError parse_failed)
  end.

(** The structure guard,
    [!notebookJson || !Array.isArray(notebookJson.cells)]; the property is
    read only of a value that is not falsy, and [Array.isArray] is the
    match on [JArr]. *)
Definition dquote : string := String "034"%char "".

Definition cells_not_found : McpError :=
  mkMcpError InternalError
    ("Invalid notebook structure: " +:+ dquote +:+ "cells" +:+ dquote
     +:+ " array not found.").

Definition check_structure (notebookJson : json) : outcome (list json) :=
  if falsy notebookJson then mthrow (ThrownMcpError cells_not_found)
  else
    cells ← get_prop (Some notebookJson) "cells";
    match cells with
    | Some (JArr cells) => mret cells
    | _ => mthrow (ThrownMcpError cells_not_found)
    end.

(** The cells of the notebook after an update in place of the array
    that [notebookJson.cells] refers to. *)
Definition with_cells (notebookJson : json) (cells : list json) : json :=
  set_prop notebookJson "cells" (JArr cells).

Definition source_value (code : string) : json :=
  JArr (JStr <$> encode_source code).

(** ** add_code_cell, steps 4 and 5 (lines 355-381) *)

Definition newCell (code : string) : json :=
  JObj [ ("cell_type", JStr "code");
         ("execution_count", JNull);
         ("metadata", JObj []);
         ("outputs", JArr []);
         ("source", source_value code) ].

(** [cells.splice(start, 0, item)]: a negative start counts from the
    end, and the start is clamped to the array. *)
Definition splice_insert (start : Z) (item : json) (cells : list json)
    : list json :=
  let len := Z.of_nat (length cells) in
  let actualStart :=
    if (start <? 0)%Z then Z.max (len + start) 0 else Z.min start len in
  take (Z.to_nat actualStart) cells ++ item :: drop (Z.to_nat actualStart) cells.

(** [cells.push(item)]. *)
Definition push (item : json) (cells : list json) : list json :=
  cells ++ [item].

Definition insert_or_append (position : option Z) (item : json)
    (cells : list json) : list json :=
  match position with
  | Some position =>
      if (0 <=? position)%Z && (position <=? Z.of_nat (length cells))%Z
      then splice_insert position item cells
      else push item cells
  | None => push item cells
  end.

Definition insert_code_cell (notebookJson : json) (code : string)
    (position : option Z) : outcome json :=
  cells ← check_structure notebookJson;
  mret (with_cells notebookJson (insert_or_append position (newCell code) cells)).

(** ** edit_code_cell, steps 4 and 5 (lines 452-473) *)

Definition invalid_cell_index (cellIndex : Z) (count : nat) : McpError :=
  mkMcpError InvalidParams
    ("Invalid cell index: " +:+ Integer_toString cellIndex
     +:+ ". Notebook has " +:+ Integer_toString (Z.of_nat count) +:+ " cells.").

Definition not_a_code_cell (cellIndex : Z) (cell_type : option json) : McpError :=
  mkMcpError InvalidParams
    ("Cell at index " +:+ Integer_toString cellIndex
     +:+ " is not a code cell (type: " +:+ template cell_type +:+ ").").

(** [cell_type !== 'code']. *)
Definition is_not_code (cell_type : option json) : bool :=
  match cell_type with
  | Some (JStr s) => negb (bool_decide (s = "code"))
  | _ => true
  end.

Definition replace_code_cell (notebookJson : json) (cellIndex : Z)
    (newCode : string) : outcome json :=
  cells ← check_structure notebookJson;
  if (cellIndex <? 0)%Z || (Z.of_nat (length cells) <=? cellIndex)%Z
  then mthrow (ThrownMcpError (invalid_cell_index cellIndex (length cells)))
  else
    let targetCell := cells !! Z.to_nat cellIndex in
    cell_type ← get_prop targetCell "cell_type";
    if is_not_code cell_type
    then mthrow (ThrownMcpError (not_a_code_cell cellIndex cell_type))
    else
      (* [targetCell.source = ...]: the cell is updated where it is *)
      let assign_source targetCell :=
        set_prop targetCell "source" (source_value newCode) in
      mret (with_cells notebookJson
              (alter assign_source (Z.to_nat cellIndex) cells)).

(** ** The tool cases *)

(** A computation of a tool case: it may throw, and it passes the state
    of Drive along. *)
Definition tool (A : Type) : Type := drive → outcome A * drive.

#[global] Instance tool_ret : MRet tool := λ A a d, (inr a, d).
#[global] Instance tool_bind : MBind tool := λ A B f m d,
  match m d with
  | (inl e, d') => (inl e, d')
  | (inr a, d') => f a d'
  end.

Definition lift {A} (m : outcome A) : tool A := λ d, (m, d).

Definition download (fileId : string) : tool string := λ d,
  match files_get_media fileId d with
  | inl e => (inl (ThrownGaxiosError e), d)
  | inr notebookContent => (inr notebookContent, d)
  end.

Definition upload (fileId mimeType body : string) : tool DriveFile := λ d,
  match files_update fileId mimeType body d with
  | (inl e, d') => (inl (ThrownGaxiosError e), d')
  | (inr updatedFile, d') => (inr updatedFile, d')
  end.

(** [try { body } catch (error) { throw handler(error) }]. *)
Definition try_catch {A} (body : tool A) (handler : exn → McpError)
    : drive → (McpError + A) * drive := λ d,
  match body d with
  | (inl error, d') => (inl (handler error), d')
  | (inr a, d') => (inr a, d')
  end.

Definition notebook_mime : string := "application/x-ipynb+json".

(** [gapiError.response?.data?.error?.message || gapiError.message],
    read of an error that is no [ZodError] (the catch blocks test for
    that one first and take the messages of its issues). *)
Definition error_message (error : exn) : string :=
  match error with
  | ZodError issues => Str.join_with ", " issues
  | ThrownMcpError e => McpError_message (code e) (message e)
  | ThrownGaxiosError e =>
      match response_error_message e with
      | Some "" | None => gaxios_message e
      | Some m => m
      end
  | TypeError msg => msg
  end.

(** [gapiError.code === 404 || gapiError.response?.status === 404]; the
    code of an [McpError] is a member of [ErrorCode], none of which is
    404. *)
Definition is_not_found (error : exn) : bool :=
  match error with
  | ThrownGaxiosError e =>
      bool_decide (gaxios_code e = Some 404%Z)
      || bool_decide (response_status e = Some 404%Z)
  | _ => false
  end.

(** The catch blocks of the two cases (lines 402-423 and 495-515) differ
    in the texts only. *)
Definition tool_catch (tool_name failed : string) (notebookFileId : string)
    (error : exn) : McpError :=
  match error with
  | ZodError issues =>
      mkMcpError InvalidParams
        (failed +:+ "Invalid arguments for " +:+ tool_name +:+ ": "
         +:+ Str.join_with ", " issues)
  | _ =>
      let message := error_message error in
      if is_not_found error then
        mkMcpError InvalidRequest
          (failed +:+ "Notebook file not found (ID: " +:+ notebookFileId
           +:+ "). " +:+ message)
      else mkMcpError InternalError (failed +:+ message)
  end.

Definition add_code_cell_catch (args : AddCodeCellArgs) : exn → McpError :=
  tool_catch "add_code_cell" "Failed to add code cell: " (add_notebookFileId args).

Definition edit_code_cell_catch (args : EditCodeCellArgs) : exn → McpError :=
  tool_catch "edit_code_cell" "Failed to edit code cell: " (edit_notebookFileId args).

(** The texts of the two success responses. *)
Definition added_text (updatedFile : DriveFile) : string :=
  "Successfully added code cell to notebook '" +:+ file_name updatedFile
  +:+ "' (ID: " +:+ file_id updatedFile +:+ ").".

Definition edited_text (cellIndex : Z) (updatedFile : DriveFile) : string :=
  "Successfully edited cell " +:+ Integer_toString cellIndex
  +:+ " in notebook '" +:+ file_name updatedFile
  +:+ "' (ID: " +:+ file_id updatedFile +:+ ").".

(** [case 'add_code_cell'] (lines 323-423); the result is the text of
    the response. *)
Definition add_code_cell (args : AddCodeCellArgs)
    : drive → (McpError + string) * drive :=
  try_catch
    (validatedArgs ← lift (AddCodeCellArgsSchema_parse args);
     let notebookFileId := add_notebookFileId validatedArgs in
     notebookContent ← download notebookFileId;
     notebookJson ← lift (parse_notebook notebookContent);
     edited ← lift (insert_code_cell notebookJson (code_text validatedArgs)
                      (position validatedArgs));
     let updatedNotebookContent := JSON_stringify edited in
     updatedFile ← upload notebookFileId notebook_mime updatedNotebookContent;
     mret (added_text updatedFile))
    (add_code_cell_catch args).

(** [case 'edit_code_cell'] (lines 425-515). *)
Definition edit_code_cell (args : EditCodeCellArgs)
    : drive → (McpError + string) * drive :=
  try_catch
    (validatedArgs ← lift (EditCodeCellArgsSchema_parse args);
     let notebookFileId := edit_notebookFileId validatedArgs in
     notebookContent ← download notebookFileId;
     notebookJson ← lift (parse_notebook notebookContent);
     edited ← lift (replace_code_cell notebookJson (cellIndex validatedArgs)
                      (newCode validatedArgs));
     let updatedNotebookContent := JSON_stringify edited in
     updatedFile ← upload notebookFileId notebook_mime updatedNotebookContent;
     mret (edited_text (cellIndex validatedArgs) updatedFile))
    (edit_code_cell_catch args).

End Server.

(** ** A small platform to run the handlers on

    Drive is a finite map from file ids to a name and a content; the JSON
    printer is compact and does not escape, and the parser knows the
    [notebooks] it is given. *)
Module Demo.

Definition quoted (s : string) : string :=
  String "034"%char "" +:+ s +:+ String "034"%char "".

Definition number_text (x : spec_float) : string :=
  match x with
  | S754_zero _ => "0"
  | S754_infinity false => "Infinity"
  | S754_infinity true => "-Infinity"
  | S754_nan => "NaN"
  | S754_finite sign m 0 =>
      (if sign then "-" else "") +:+ pretty (Z.pos m)
  | S754_finite sign m e =>
      (if sign then "-" else "") +:+ pretty (Z.pos m) +:+ "*2^" +:+ pretty e
  end.

Fixpoint stringify (v : json) : string :=
  match v with
  | JNull => "null"
  | JBool true => "true"
  | JBool false => "false"
  | JNum x => number_text x
  | JStr s => quoted s
  | JArr items => "[" +:+ Str.join_with "," (map stringify items) +:+ "]"
  | JObj props =>
      "{" +:+ Str.join_with ","
                (map (λ p, quoted (fst p) +:+ ":" +:+ stringify (snd p)) props)
      +:+ "}"
  end.

Definition code_cell (source : list string) : json :=
  JObj [ ("cell_type", JStr "code");
         ("execution_count", JNum (S754_finite false 3 0));
         ("metadata", JObj [("collapsed", JBool false)]);
         ("outputs", JArr [JObj [("output_type", JStr "stream")]]);
         ("source", JArr (JStr <$> source)) ].

Definition markdown_cell (source : list string) : json :=
  JObj [ ("cell_type", JStr "markdown");
         ("metadata", JObj []);
         ("source", JArr (JStr <$> source)) ].

Definition cells : list json := [code_cell ["a=1"]; markdown_cell ["# title"]].

Definition notebook : json :=
  JObj [ ("cells", JArr cells);
         ("metadata", JObj []);
         ("nbformat", JNum (S754_finite false 4 0));
         ("nbformat_minor", JNum (S754_finite false 5 0)) ].

(** A record without a cell sequence. *)
Definition no_cells : json := JObj [("metadata", JObj [])].

Definition notebooks : list json := [notebook; no_cells; JArr []].

Definition parse (text : string) : option json :=
  find (λ v, bool_decide (stringify v = text)) notebooks.

Definition not_found : GaxiosError :=
  mkGaxiosError "File not found." (Some 404%Z) (Some 404%Z) (Some "File not found.").

Definition store : Type := gmap string (string * string).

Definition get_media (fileId : string) (d : store) : GaxiosError + string :=
  match d !! fileId with
  | Some (_, content) => inr content
  | None => inl not_found
  end.

Definition update (fileId mimeType body : string) (d : store)
    : (GaxiosError + DriveFile) * store :=
  match d !! fileId with
  | Some (name, _) => (inr (mkDriveFile fileId name), <[fileId := (name, body)]> d)
  | None => (inl not_found, d)
  end.

Definition error_code_number (c : ErrorCode) : Z :=
  match c with
  | InternalError => -32603
  | InvalidParams => -32602
  | InvalidRequest => -32600
  | MethodNotFound => -32601
  end.

#[local] Instance platform : Platform := {|
  JSON_parse := parse;
  JSON_stringify := stringify;
  Number_toString := number_text;
  Integer_toString := pretty;
  McpError_message c m := "MCP error " +:+ pretty (error_code_number c) +:+ ": " +:+ m;
  zod_nonnegative_message := "Number must be greater than or equal to 0";
  TypeError_cannot_read base key :=
    "Cannot read properties of " +:+ base +:+ " (reading '" +:+ key +:+ "')";
  drive := store;
  files_get_media := get_media;
  files_update := update
|}.

(** Drive with the notebook, a record without cells, and a text that
    is no JSON. *)
Definition drive0 : store :=
  {[ "nb" := ("demo.ipynb", stringify notebook);
     "nocells" := ("nocells.ipynb", stringify no_cells);
     "text" := ("notes.txt", "not json") ]}.

End Demo.


(** ** Further readings of texts and notebooks *)

Module Lines.

(** [s.includes('\n')]. *)
Fixpoint has_LF (s : string) : bool :=
  match s with
  | EmptyString => false
  | String c rest => Str.is_LF c || has_LF rest
  end.

(** The number of line feeds of a text. *)
Fixpoint count_LF (s : string) : nat :=
  match s with
  | EmptyString => 0
  | String c rest => (if Str.is_LF c then 1 else 0) + count_LF rest
  end.

(** A text and the same text followed by one line feed, where the text
    is not empty and does not end in a line feed. *)
Definition extends_by_newline (long short : string) : Prop :=
  long = short +:+ Str.newline
  ∧ short ≠ ""
  ∧ Str.ends_with_newline short = false.

End Lines.

(** The cells of a notebook that are not code cells, in order. *)
Definition other_cells (cells : list json) : list json :=
  filter (λ cell, cell_kind cell ≠ Some "code") cells.

(** ** A platform that knows more notebooks *)

Module More.

(** A notebook whose cells are [null] and an object without a kind. *)
Definition odd_cells : list json := [JNull; JObj [("source", JArr [])]].

Definition odd_notebook : json := JObj [("cells", JArr odd_cells)].

(** The notebook of [Demo] after its first cell was given the source
    [a=2]. *)
Definition edited_notebook : json :=
  JObj [ ("cells", JArr [Demo.code_cell ["a=2"]; Demo.markdown_cell ["# title"]]);
         ("metadata", JObj []);
         ("nbformat", JNum (S754_finite false 4 0));
         ("nbformat_minor", JNum (S754_finite false 5 0)) ].

Definition notebooks : list json :=
  odd_notebook :: edited_notebook :: Demo.notebooks.

Definition parse (text : string) : option json :=
  find (λ v, bool_decide (Demo.stringify v = text)) notebooks.

#[local] Instance platform : Platform := {|
  JSON_parse := parse;
  JSON_stringify := Demo.stringify;
  Number_toString := Demo.number_text;
  Integer_toString := pretty;
  McpError_message c m :=
    "MCP error " +:+ pretty (Demo.error_code_number c) +:+ ": " +:+ m;
  zod_nonnegative_message := "Number must be greater than or equal to 0";
  TypeError_cannot_read base key :=
    "Cannot read properties of " +:+ base +:+ " (reading '" +:+ key +:+ "')";
  drive := Demo.store;
  files_get_media := Demo.get_media;
  files_update := Demo.update
|}.

Definition drive0 : Demo.store :=
  <[ "odd" := ("odd.ipynb", Demo.stringify odd_notebook) ]> Demo.drive0.

End More.

(** ** The other tools: list_files, read_file, write_file
       (lines 46-64, 116-147 and 169-321) *)

(** A property of a resource of Drive: a string, [null] or absent. *)
Inductive field : Type :=
| Absent
| Null
| Text (s : string).

(** A file of [response.data.files], with the requested fields. *)
Record ListedFile : Type := mkListedFile {
  listed_id : field;
  listed_name : field;
  listed_mimeType : field
}.

(** [response.data] of [drive.files.list]. *)
Record FileList : Type := mkFileList {
  files : option (list ListedFile);
  nextPageToken : field
}.

(** The parameters given to [drive.files.list]. *)
Record ListParams : Type := mkListParams {
  list_pageSize : Z;
  list_pageToken : option string;
  list_q : string;
  list_fields : string;
  list_orderBy : string
}.

(** The parameters given to [drive.files.create]: the metadata of
    [requestBody], the [media] and the requested fields. *)
Record CreateParams : Type := mkCreateParams {
  create_name : string;
  create_parents : list string;
  create_mimeType : string;
  create_body : string;
  create_fields : string
}.

(** [response.data] of [drive.files.create]. *)
Record CreatedFile : Type := mkCreatedFile {
  created_id : field;
  created_name : field
}.

(** What these tools take from Drive and from zod besides the above. *)
Class Folders `{Platform} : Type := {
  (** [drive.files.list(params)]. *)
  files_list : ListParams → drive → GaxiosError + FileList;
  (** [drive.files.create({requestBody, media, fields})]. *)
  files_create : CreateParams → drive → (GaxiosError + CreatedFile) * drive;
  (** The message of the issue that zod reports for [positive()]. *)
  zod_positive_message : string
}.

(** The arguments, with the types the schemas demand of the fields. *)
Record ListFilesArgs : Type := mkListFilesArgs {
  folderId : option string;
  pageSize : option Z;
  pageToken : option string
}.

Record ReadFileArgs : Type := mkReadFileArgs {
  read_fileId : string
}.

Record WriteFileArgs : Type := mkWriteFileArgs {
  fileName : string;
  content : string;
  parentFolderId : option string;
  mimeType : option string
}.

(** The names of the tools that the [ListTools] handler announces, and
    the cases of the [switch] of [handleCallTool]. *)
Definition listed_tools : list string :=
  ["list_files"; "read_file"; "write_file"; "edit_code_cell"; "add_code_cell"].

Inductive tool_case : Type :=
| case_list_files
| case_read_file
| case_write_file
| case_add_code_cell
| case_edit_code_cell
| case_default.

Definition select_case (toolName : string) : tool_case :=
  if decide (toolName = "list_files") then case_list_files
  else if decide (toolName = "read_file") then case_read_file
  else if decide (toolName = "write_file") then case_write_file
  else if decide (toolName = "add_code_cell") then case_add_code_cell
  else if decide (toolName = "edit_code_cell") then case_edit_code_cell
  else case_default.

Section OtherTools.

Context `{Folders}.

(** A field within a template literal. *)
Definition field_text (f : field) : string :=
  match f with
  | Absent => "undefined"
  | Null => "null"
  | Text s => s
  end.

(** [ListFilesArgsSchema.parse]: the page size defaults to 100 and must
    be positive. *)
Definition ListFilesArgsSchema_parse (args : ListFilesArgs)
    : outcome (option string * Z * option string) :=
  match pageSize args with
  | Some n =>
      if (0 <? n)%Z then mret (folderId args, n, pageToken args)
      else mthrow (ZodError [zod_positive_message])
  | None => mret (folderId args, 100%Z, pageToken args)
  end.

(** [validatedArgs.folderId || 'root']. *)
Definition folder_or_root (folderId : option string) : string :=
  match folderId with
  | Some "" | None => "root"
  | Some id => id
  end.

Definition folder_mime : string := "application/vnd.google-apps.folder".

(** The line that [forEach] adds for a file. *)
Definition file_line (file : ListedFile) : string :=
  let type :=
    match listed_mimeType file with
    | Text m => if bool_decide (m = folder_mime) then "[Folder]" else "[File]"
    | _ => "[File]"
    end in
  "- " +:+ type +:+ " " +:+ field_text (listed_name file)
  +:+ " (ID: " +:+ field_text (listed_id file) +:+ ")" +:+ Str.newline.

(** Step 3 of [list_files]: the text of the response. *)
Definition list_files_text (folderId : string) (data : FileList) : string :=
  let files := default [] (files data) in
  let resultText := "Files/Folders in '" +:+ folderId +:+ "':" +:+ Str.newline in
  let resultText :=
    if bool_decide (length files = 0%nat)
    then resultText +:+ "- (No files or folders found)" +:+ Str.newline
    else foldl (λ text file, text +:+ file_line file) resultText files in
  match nextPageToken data with
  | Text "" | Absent | Null => resultText
  | Text token =>
      resultText +:+ Str.newline +:+ "(More files available. Use pageToken: "
      +:+ token +:+ " to fetch next page)"
  end.

Definition list_files_request (folderId : string) (pageSize : Z)
    (pageToken : option string) : ListParams :=
  mkListParams pageSize pageToken
    ("'" +:+ folderId +:+ "' in parents and trashed = false")
    "nextPageToken, files(id, name, mimeType)"
    "folder,name".

Definition list_files_catch (error : exn) : McpError :=
  match error with
  | ZodError issues =>
      mkMcpError InvalidParams
        ("Invalid arguments for list_files: " +:+ Str.join_with ", " issues)
  | _ => mkMcpError InternalError ("Failed to list files: " +:+ error_message error)
  end.

Definition list_folder (params : ListParams) : tool FileList := λ d,
  match files_list params d with
  | inl e => (inl (ThrownGaxiosError e), d)
  | inr data => (inr data, d)
  end.

(** [case 'list_files'] (lines 170-227). *)
Definition list_files (args : ListFilesArgs)
    : drive → (McpError + string) * drive :=
  try_catch
    (validatedArgs ← lift (ListFilesArgsSchema_parse args);
     let folderId := folder_or_root validatedArgs.1.1 in
     let pageSize := validatedArgs.1.2 in
     let pageToken := validatedArgs.2 in
     data ← list_folder (list_files_request folderId pageSize pageToken);
     mret (list_files_text folderId data))
    list_files_catch.

Definition read_file_catch (args : ReadFileArgs) (error : exn) : McpError :=
  match error with
  | ZodError issues =>
      mkMcpError InvalidParams
        ("Failed to read file: Invalid arguments for read_file: "
         +:+ Str.join_with ", " issues)
  | _ =>
      let message := error_message error in
      if is_not_found error then
        mkMcpError InvalidRequest
          ("Failed to read file: File not found (ID: " +:+ read_fileId args
           +:+ "). " +:+ message)
      else mkMcpError InternalError ("Failed to read file: " +:+ message)
  end.

(** [case 'read_file'] (lines 230-275). *)
Definition read_file (args : ReadFileArgs)
    : drive → (McpError + string) * drive :=
  try_catch
    (fileContent ← download (read_fileId args);
     mret fileContent)
    (read_file_catch args).

Definition write_file_request (args : WriteFileArgs) : CreateParams :=
  let parentFolderId := default "root" (parentFolderId args) in
  let mimeType := default "text/plain" (mimeType args) in
  mkCreateParams (fileName args)
    (if bool_decide (parentFolderId = "") then [] else [parentFolderId])
    mimeType (content args) "id, name".

Definition created_text (createdFile : CreatedFile) (parentFolderId : string)
    : string :=
  "Successfully created file '" +:+ field_text (created_name createdFile)
  +:+ "' (ID: " +:+ field_text (created_id createdFile)
  +:+ ") in folder '" +:+ parentFolderId +:+ "'.".

Definition write_file_catch (error : exn) : McpError :=
  match error with
  | ZodError issues =>
      mkMcpError InvalidParams
        ("Invalid arguments for write_file: " +:+ Str.join_with ", " issues)
  | _ => mkMcpError InternalError ("Failed to write file: " +:+ error_message error)
  end.

Definition create_file (params : CreateParams) : tool CreatedFile := λ d,
  match files_create params d with
  | (inl e, d') => (inl (ThrownGaxiosError e), d')
  | (inr createdFile, d') => (inr createdFile, d')
  end.

(** [case 'write_file'] (lines 278-320). *)
Definition write_file (args : WriteFileArgs)
    : drive → (McpError + string) * drive :=
  try_catch
    (createdFile ← create_file (write_file_request args);
     mret (created_text createdFile (default "root" (parentFolderId args))))
    write_file_catch.

End OtherTools.

(** A Drive for these tools: every file is listed as a text file, and a
    new file gets its name, prefixed, as its id. *)
Module MoreFolders.

Definition listed (entry : string * (string * string)) : ListedFile :=
  mkListedFile (Text entry.1) (Text entry.2.1) (Text "text/plain").

Definition list_all (params : ListParams) (d : Demo.store)
    : GaxiosError + FileList :=
  inr (mkFileList (Some (listed <$> map_to_list d)) Absent).

Definition create (params : CreateParams) (d : Demo.store)
    : (GaxiosError + CreatedFile) * Demo.store :=
  let id := "id-" +:+ create_name params in
  (inr (mkCreatedFile (Text id) (Text (create_name params))),
   <[id := (create_name params, create_body params)]> d).

#[local] Instance folders : @Folders More.platform := {|
  files_list := list_all : ListParams → @drive More.platform → _;
  files_create := create : CreateParams → @drive More.platform → _;
  zod_positive_message := "Number must be greater than 0"
|}.

End MoreFolders.

(** ** The Google Maps server: the guards of the arguments and the
       handler of a tool call *)

(** [typeof v], of a value or of [undefined]. *)
Inductive js_type : Type :=
| type_undefined
| type_object
| type_boolean
| type_number
| type_string.

Definition typeof (v : option json) : js_type :=
  match v with
  | None => type_undefined
  | Some JNull | Some (JArr _) | Some (JObj _) => type_object
  | Some (JBool _) => type_boolean
  | Some (JNum _) => type_number
  | Some (JStr _) => type_string
  end.

Definition is_type (t : js_type) (v : option json) : bool :=
  match t, typeof v with
  | type_undefined, type_undefined
  | type_object, type_object
  | type_boolean, type_boolean
  | type_number, type_number
  | type_string, type_string => true
  | _, _ => false
  end.

(** [args.key], read after [typeof args === 'object' && args !== null];
    none of the names read is defined by a prototype. *)
Definition arg (args : option json) (key : string) : option json :=
  match args with
  | Some v => own_prop v key
  | None => None
  end.

(** [v === null] and [v === undefined]. *)
Definition is_null (v : option json) : bool :=
  match v with
  | Some JNull => true
  | _ => false
  end.

Definition is_undefined (v : option json) : bool :=
  match v with
  | None => true
  | Some _ => false
  end.

(** [typeof args === 'object' && args !== null]. *)
Definition is_object (args : option json) : bool :=
  is_type type_object args && negb (is_null args).

(** [Array.isArray(v) && v.every(o => typeof o === 'string')]. *)
Definition is_string_array (v : option json) : bool :=
  match v with
  | Some (JArr items) => forallb (λ o, is_type type_string (Some o)) items
  | _ => false
  end.

(** [v === undefined || typeof v === 'string']. *)
Definition is_optional_string (v : option json) : bool :=
  is_undefined v || is_type type_string v.

Definition isGeocodeArgs (args : option json) : bool :=
  is_object args && is_type type_string (arg args "address").

Definition isReverseGeocodeArgs (args : option json) : bool :=
  is_object args
  && is_type type_number (arg args "lat")
  && is_type type_number (arg args "lng").

Definition isDirectionsArgs (args : option json) : bool :=
  is_object args
  && is_type type_string (arg args "origin")
  && is_type type_string (arg args "destination")
  && is_optional_string (arg args "mode").

Definition isDistanceMatrixArgs (args : option json) : bool :=
  is_object args
  && is_string_array (arg args "origins")
  && is_string_array (arg args "destinations")
  && is_optional_string (arg args "mode").

(** What the catch block reads of an error of the Maps client:
    [error.response?.data?.error_message], [error.response?.data?.status]
    and [error.message]. *)
Record MapsError : Type := mkMapsError {
  maps_error_message : option json;
  maps_status : option json;
  maps_message : option json
}.

(** The Maps client: each call returns [response.data] or throws. *)
Class MapsClient : Type := {
  API_KEY : string;
  geocode : string → string → MapsError + json;
  reverseGeocode : spec_float → spec_float → string → MapsError + json;
  directions : string → string → option string → string → MapsError + json;
  distancematrix :
    list string → list string → option string → string → MapsError + json
}.

(** What is thrown inside the [try] of the handler. *)
Inductive maps_exn : Type :=
| MapsMcpError (e : McpError)
| MapsClientError (e : MapsError).

(** The result of the handler; [isError] is absent on a success. *)
Record MapsResult : Type := mkMapsResult {
  result_text : string;
  result_isError : bool
}.

Section Maps.

Context `{Platform} `{MapsClient}.

(** The values of the arguments that passed a guard. *)
Definition string_arg (args : option json) (key : string) : string :=
  match arg args key with
  | Some (JStr s) => s
  | _ => ""
  end.

Definition number_arg (args : option json) (key : string) : spec_float :=
  match arg args key with
  | Some (JNum x) => x
  | _ => S754_zero false
  end.

Definition optional_string_arg (args : option json) (key : string)
    : option string :=
  match arg args key with
  | Some (JStr s) => Some s
  | _ => None
  end.

Definition strings_arg (args : option json) (key : string) : list string :=
  match arg args key with
  | Some (JArr items) =>
      (λ o, match o with JStr s => s | _ => "" end) <$> items
  | _ => []
  end.

Definition invalid_arguments (toolName : string) : maps_exn :=
  MapsMcpError (mkMcpError InvalidParams ("Invalid arguments for " +:+ toolName)).

Definition call (response : MapsError + json) : maps_exn + json :=
  match response with
  | inl e => inl (MapsClientError e)
  | inr data => inr data
  end.

(** The [switch] within the [try] (lines 231-264); the value is
    [response.data]. *)
Definition maps_switch (toolName : string) (args : option json)
    : maps_exn + json :=
  if decide (toolName = "geocode") then
    if negb (isGeocodeArgs args) then inl (invalid_arguments "geocode")
    else call (geocode (string_arg args "address") API_KEY)
  else if decide (toolName = "reverse_geocode") then
    if negb (isReverseGeocodeArgs args)
    then inl (invalid_arguments "reverse_geocode")
    else call (reverseGeocode (number_arg args "lat") (number_arg args "lng") API_KEY)
  else if decide (toolName = "get_directions") then
    if negb (isDirectionsArgs args) then inl (invalid_arguments "get_directions")
    else call (directions (string_arg args "origin") (string_arg args "destination")
                 (optional_string_arg args "mode") API_KEY)
  else if decide (toolName = "get_distance_matrix") then
    if negb (isDistanceMatrixArgs args)
    then inl (invalid_arguments "get_distance_matrix")
    else call (distancematrix (strings_arg args "origins")
                 (strings_arg args "destinations")
                 (optional_string_arg args "mode") API_KEY)
  else inl (MapsMcpError (mkMcpError MethodNotFound ("Unknown tool: " +:+ toolName))).

(** [a || b] on values that may be [undefined]. *)
Definition or_else (a b : option json) : option json :=
  match a with
  | Some v => if falsy v then b else a
  | None => b
  end.

(** [error.response?.data?.error_message || error.response?.data?.status
     || error.message || 'Unknown Google Maps API error']. *)
Definition errorMessage (error : maps_exn) : option json :=
  let unknown := Some (JStr "Unknown Google Maps API error") in
  match error with
  | MapsMcpError e =>
      or_else (Some (JStr (McpError_message (code e) (message e)))) unknown
  | MapsClientError e =>
      or_else (or_else (or_else (maps_error_message e) (maps_status e))
                 (maps_message e)) unknown
  end.

(** The handler of a tool call (lines 227-278). *)
Definition maps_call_tool (toolName : string) (args : option json) : MapsResult :=
  match maps_switch toolName args with
  | inr data => mkMapsResult (JSON_stringify data) false
  | inl error =>
      mkMapsResult ("Google Maps API Error: " +:+ template (errorMessage error)) true
  end.

End Maps.

(** The text that the catch block of the Maps handler makes of an
    [McpError] thrown in the [switch]. *)
Definition thrown_text `{Platform} (e : McpError) : string :=
  match McpError_message (code e) (message e) with
  | "" => "Unknown Google Maps API error"
  | m => m
  end.

(** The result that the Maps handler makes of the answer of the client. *)
Definition maps_render `{Platform} (response : MapsError + json) : MapsResult :=
  match response with
  | inr data => mkMapsResult (JSON_stringify data) false
  | inl e =>
      mkMapsResult
        ("Google Maps API Error: " +:+ template (errorMessage (MapsClientError e)))
        true
  end.

(** The names of the cases of the Maps handler. *)
Definition maps_tools : list string :=
  ["geocode"; "reverse_geocode"; "get_directions"; "get_distance_matrix"].

(** A Maps client that answers with the query it was given, and fails on
    an empty address or origin. *)
Module DemoMaps.

Definition bad_request : MapsError :=
  mkMapsError (Some (JStr "Invalid request. Missing parameter."))
    (Some (JStr "INVALID_REQUEST"))
    (Some (JStr "Request failed with status code 400")).

Definition answer (query : list string) : json :=
  JObj [("status", JStr "OK"); ("query", JArr (JStr <$> query))].

#[local] Instance client : MapsClient := {|
  API_KEY := "key";
  geocode address key :=
    if bool_decide (address = "") then inl bad_request else inr (answer [address]);
  reverseGeocode lat lng key := inr (answer []);
  directions origin destination mode key :=
    if bool_decide (origin = "") then inl bad_request
    else inr (answer [origin; destination; default "driving" mode]);
  distancematrix origins destinations mode key :=
    inr (answer (origins ++ destinations))
|}.

End DemoMaps.

(** * Properties *)

(** ** Strings and their lines *)

Module StrFacts.
Import Str.

Lemma app_cons c s t : String c s +:+ t = String c (s +:+ t).
Proof. reflexivity. Qed.

Lemma app_nil_r s : s +:+ "" = s.
Proof. induction s as [|c s IH]; [done|]. by rewrite app_cons, IH. Qed.

Lemma app_assoc s t u : (s +:+ t) +:+ u = s +:+ t +:+ u.
Proof. induction s as [|c s IH]; [done|]. by rewrite !app_cons, IH. Qed.

Lemma snoc_not_empty s c : snoc s c ≠ "".
Proof. by destruct s. Qed.

(** A string is empty or ends in a character. *)
Lemma snoc_cases s : s = "" ∨ ∃ s' c, s = snoc s' c.
Proof.
  induction s as [|a s IH]; [by left|right].
  destruct IH as [->|(s' & c & ->)].
  - by exists "", a.
  - by exists (String a s'), c.
Qed.

Lemma length_snoc s c : String.length (snoc s c) = S (String.length s).
Proof. induction s as [|a s IH]; [done|]. unfold snoc in *. rewrite app_cons. simpl. by rewrite IH. Qed.

Lemma snoc_ind (P : string → Prop) :
  P "" → (∀ s c, P s → P (snoc s c)) → ∀ s, P s.
Proof.
  intros Hnil Hsnoc s.
  remember (String.length s) as n eqn:Hn.
  revert s Hn. induction n as [|n IH]; intros s Hn.
  - by destruct s.
  - destruct (snoc_cases s) as [->|(s' & c & ->)]; [done|].
    apply Hsnoc, IH. rewrite length_snoc in Hn. congruence.
Qed.

Lemma is_LF_true c : is_LF c = true ↔ c = LF.
Proof. unfold is_LF. by rewrite bool_decide_eq_true. Qed.

Lemma is_LF_false c : is_LF c = false ↔ c ≠ LF.
Proof. unfold is_LF. by rewrite bool_decide_eq_false. Qed.

Lemma ends_with_newline_cons a s :
  s ≠ "" → ends_with_newline (String a s) = ends_with_newline s.
Proof. by destruct s. Qed.

Lemma ends_with_newline_snoc s c : ends_with_newline (snoc s c) = is_LF c.
Proof.
  induction s as [|a s IH]; [done|].
  change (snoc (String a s) c) with (String a (snoc s c)).
  rewrite ends_with_newline_cons; [done|apply snoc_not_empty].
Qed.

Lemma replace_final_newline_cons a s :
  s ≠ "" → replace_final_newline (String a s) = String a (replace_final_newline s).
Proof. by destruct s. Qed.

Lemma replace_final_newline_snoc s c :
  replace_final_newline (snoc s c) = if is_LF c then s else snoc s c.
Proof.
  induction s as [|a s IH]; [done|].
  change (snoc (String a s) c) with (String a (snoc s c)).
  rewrite replace_final_newline_cons by apply snoc_not_empty.
  rewrite IH. by destruct (is_LF c).
Qed.

Lemma split_lines_not_nil s : split_lines s ≠ [].
Proof.
  destruct s as [|c s]; [done|]. simpl.
  destruct (is_LF c); [done|]. by destruct (split_lines s).
Qed.

(** A final line feed opens one more, empty, line. *)
Lemma split_lines_newline s :
  split_lines (s +:+ newline) = split_lines s ++ [""].
Proof.
  induction s as [|c s IH]; [done|].
  rewrite app_cons. simpl. rewrite IH.
  destruct (is_LF c); [done|].
  pose proof (split_lines_not_nil s). by destruct (split_lines s).
Qed.

(** Any other final character extends the last line. *)
Lemma split_lines_snoc s c lines line :
  c ≠ LF → split_lines s = lines ++ [line] →
  split_lines (snoc s c) = lines ++ [snoc line c].
Proof.
  intros Hc. revert lines line.
  induction s as [|a s IH]; intros lines line Hs.
  - simpl in Hs. destruct lines as [|? [|]]; simplify_eq/=.
    by apply is_LF_false in Hc as ->.
  - unfold snoc in *. rewrite app_cons. simpl in *.
    destruct (is_LF a).
    + destruct lines as [|l lines]; simplify_eq/=.
      { by pose proof (split_lines_not_nil s). }
      by erewrite IH.
    + destruct (split_lines s) as [|p ps] eqn:Hsp;
        [by destruct (split_lines_not_nil s)|].
      destruct lines as [|l lines]; simplify_eq/=.
      * by rewrite (IH [] p).
      * by erewrite (IH (_ :: lines)).
Qed.

End StrFacts.

(** ** The source array *)

Module SourceFacts.
Import Str StrFacts.

Lemma join_app xs ys : join (xs ++ ys) = join xs +:+ join ys.
Proof.
  induction xs as [|x xs IH]; [done|].
  simpl. unfold join in *. simpl. by rewrite IH, app_assoc.
Qed.

Lemma join_singleton x : join [x] = x.
Proof. unfold join. simpl. apply app_nil_r. Qed.

Lemma terminated_not_newline line : line ≠ "" → line +:+ newline ≠ newline.
Proof. destruct line as [|a [|b line]]; [done|done|done]. Qed.

Lemma pop_blank_line_snoc xs x :
  pop_blank_line (xs ++ [x]) = if decide (x = newline) then xs else xs ++ [x].
Proof.
  unfold pop_blank_line. rewrite last_snoc, length_app. simpl.
  rewrite bool_decide_true by lia. simpl.
  destruct (decide (x = newline)) as [->|Hx].
  - rewrite bool_decide_true by done. apply removelast_last.
  - rewrite bool_decide_false; [done|congruence].
Qed.

Lemma strip_last_line_snoc xs x :
  strip_last_line (xs ++ [x]) = xs ++ [replace_final_newline x].
Proof.
  unfold strip_last_line. rewrite length_app. simpl.
  rewrite bool_decide_true by lia.
  replace (length xs + 1 - 1)%nat with (length xs + 0)%nat by lia.
  by rewrite alter_app_r.
Qed.

Lemma map_lines_newline s : map_lines (s +:+ newline) = map_lines s ++ [newline].
Proof. unfold map_lines, terminated. by rewrite split_lines_newline, fmap_app. Qed.

(** The lines of a text: all but the last are followed by a line feed
    in the text, and the last is empty exactly when the text is empty or
    ends in a line feed. *)
Lemma split_lines_shape s :
  ∃ lines line,
    split_lines s = lines ++ [line]
    ∧ join (terminated lines) +:+ line = s
    ∧ (line = "" ↔ s = "" ∨ ends_with_newline s = true).
Proof.
  induction s as [|s c (lines & line & Hsplit & Hjoin & Hlast)] using snoc_ind.
  - exists [], "". split_and!; [done|done|]. by split; [left|].
  - destruct (decide (c = LF)) as [->|Hc].
    + exists (lines ++ [line]), "". split_and!.
      * change (snoc s LF) with (s +:+ newline).
        by rewrite split_lines_newline, Hsplit.
      * unfold terminated in *. rewrite fmap_app, join_app, app_nil_r.
        rewrite list_fmap_singleton, join_singleton, <- app_assoc.
        by rewrite Hjoin.
      * split; [|done]. intros _. right. by rewrite ends_with_newline_snoc.
    + exists lines, (snoc line c). split_and!.
      * by apply split_lines_snoc.
      * unfold snoc. by rewrite <- app_assoc, Hjoin.
      * split.
        { intros Hl. by apply snoc_not_empty in Hl. }
        intros [Hs|He].
        { by apply snoc_not_empty in Hs. }
        rewrite ends_with_newline_snoc in He. by apply is_LF_true in He.
Qed.

(** Without the blank line to pop, the encoding is the lines with the
    terminator of the last one stripped. *)
Lemma strip_map_lines s lines line :
  split_lines s = lines ++ [line] →
  strip_last_line (map_lines s) = terminated lines ++ [line].
Proof.
  intros Hsplit. unfold map_lines, terminated. rewrite Hsplit, fmap_app.
  rewrite list_fmap_singleton, strip_last_line_snoc.
  change (line +:+ newline) with (snoc line LF).
  by rewrite replace_final_newline_snoc.
Qed.

Lemma join_strip_map_lines s : join (strip_last_line (map_lines s)) = s.
Proof.
  destruct (split_lines_shape s) as (lines & line & Hsplit & Hjoin & _).
  rewrite (strip_map_lines _ _ _ Hsplit), join_app, join_singleton.
  done.
Qed.

Lemma encode_source_newline s :
  encode_source (s +:+ newline) = strip_last_line (map_lines s).
Proof.
  unfold encode_source. rewrite map_lines_newline, pop_blank_line_snoc.
  by rewrite decide_True.
Qed.

Lemma encode_source_open s :
  s ≠ "" → ends_with_newline s = false →
  encode_source s = strip_last_line (map_lines s).
Proof.
  intros Hs He.
  destruct (split_lines_shape s) as (lines & line & Hsplit & _ & Hlast).
  unfold encode_source, map_lines, terminated.
  rewrite Hsplit, fmap_app, list_fmap_singleton, pop_blank_line_snoc.
  rewrite decide_False; [done|].
  apply terminated_not_newline. intros Hl. apply Hlast in Hl as [?|?]; congruence.
Qed.

Lemma last_encode_source_open s :
  s ≠ "" → ends_with_newline s = false → last (encode_source s) ≠ Some "".
Proof.
  intros Hs He.
  destruct (split_lines_shape s) as (lines & line & Hsplit & _ & Hlast).
  rewrite encode_source_open, (strip_map_lines _ _ _ Hsplit), last_snoc by done.
  intros [= Hl]. apply Hlast in Hl as [?|?]; congruence.
Qed.

(** A text that ends in a line feed is some text followed by it. *)
Lemma ends_with_newline_inv t :
  ends_with_newline t = true → ∃ s, t = s +:+ newline.
Proof.
  destruct (snoc_cases t) as [->|(s & c & ->)]; [done|].
  rewrite ends_with_newline_snoc. intros ->%is_LF_true. by exists s.
Qed.

Lemma app_newline_inj s1 s2 : s1 +:+ newline = s2 +:+ newline → s1 = s2.
Proof.
  revert s2. induction s1 as [|a s1 IH]; intros [|b s2] Heq.
  - done.
  - injection Heq as _ Heq. by destruct s2.
  - injection Heq as _ Heq. by destruct s1.
  - injection Heq as -> Heq. f_equal. by apply IH.
Qed.

Lemma app_newline_ne s : s +:+ newline ≠ s.
Proof.
  intros Heq. apply (f_equal String.length) in Heq.
  change (s +:+ newline) with (snoc s LF) in Heq.
  rewrite length_snoc in Heq. lia.
Qed.

End SourceFacts.

(** ** The line-fragment encoding *)

Section Encoding.
Import Str StrFacts SourceFacts.

(** C1: for every code text that does not end in a line feed, the
    fragments of its encoding, joined, are the code text. *)
Theorem join_encode_source (t : string) :
  ends_with_newline t = false → join (encode_source t) = t.
Proof.
  intros He. destruct (decide (t = "")) as [->|Ht]; [done|].
  rewrite encode_source_open by done. apply join_strip_map_lines.
Qed.

Lemma join_encode_source_witness :
  let t := "a=2" +:+ newline +:+ "b=3" in
  ends_with_newline t = false ∧ join (encode_source t) = t.
Proof. split; [reflexivity|]. apply join_encode_source. reflexivity. Defined.

(** C7, as the claim states it, fails on the empty code text: a lone
    line feed encodes to one empty fragment, the empty text to none. *)
Lemma lone_newline_encodes_differently :
  ends_with_newline "" = false
  ∧ encode_source ("" +:+ newline) = [""]
  ∧ encode_source "" = []
  ∧ encode_source ("" +:+ newline) ≠ encode_source "".
Proof. split_and!; done. Qed.

(** C7 (amended): for every code text [t] that does not end in a line
    feed, the encoding of [t] followed by one line feed is the encoding
    of [t] when [t] is not empty, with no empty fragment at its end, and
    is the single empty fragment when [t] is empty. *)
Theorem encode_source_trailing_newline (t : string) :
  ends_with_newline t = false →
  encode_source (t +:+ newline)
  = (if decide (t = "") then [""] else encode_source t)
  ∧ (t ≠ "" → last (encode_source (t +:+ newline)) ≠ Some "").
Proof.
  intros He. destruct (decide (t = "")) as [->|Ht]; [done|].
  rewrite encode_source_newline, <- encode_source_open by done.
  split; [done|]. intros _. by apply last_encode_source_open.
Qed.

Lemma encode_source_trailing_newline_witness :
  let t := "print(1)" in
  ends_with_newline t = false
  ∧ encode_source (t +:+ newline) = encode_source t.
Proof.
  split; [reflexivity|].
  exact (proj1 (encode_source_trailing_newline "print(1)" eq_refl)).
Defined.

(** C8, as the claim states it, fails: the encoding of the empty code
    text is not the sequence of one empty fragment. *)
Lemma encode_source_empty_not_singleton :
  encode_source "" ≠ [""] ∧ length (encode_source "") ≠ 1%nat.
Proof. split; done. Qed.

(** C8 (amended): the encoding of the empty code text is the empty
    sequence: the one fragment that the split gives is popped as a
    blank line, and nothing is left to strip. *)
Theorem encode_source_of_empty :
  map_lines "" = [newline]
  ∧ pop_blank_line (map_lines "") = []
  ∧ encode_source "" = [].
Proof. split_and!; reflexivity. Qed.

(** C10, as the claim states it, fails: two texts that differ by one
    final line feed need not have the same encoding. *)
Lemma trailing_newline_not_always_ignored :
  ¬ (∀ t, encode_source (t +:+ newline) = encode_source t).
Proof. intros Hall. by specialize (Hall ""). Qed.

(** C10 (amended): a code text [t] that ends in a line feed is some [s]
    followed by one line feed, and the fragments of the encoding of [t],
    joined, are [s].  When [s] is not empty and does not end in a line
    feed, [s] and [t] are two texts with one encoding, so the encoding
    is not injective; when [s] ends in a line feed, the encoding of [t]
    keeps an empty last fragment; when [s] is empty, [t] encodes to one
    empty fragment and [s] to none. *)
Theorem encode_source_drops_one_newline (t : string) :
  ends_with_newline t = true →
  ∃ s, t = s +:+ newline
    ∧ join (encode_source t) = s
    ∧ (s ≠ "" → ends_with_newline s = false →
       encode_source s = encode_source t ∧ s ≠ t)
    ∧ (ends_with_newline s = true → last (encode_source t) = Some "")
    ∧ (s = "" → encode_source t = [""] ∧ encode_source s = []).
Proof.
  intros (s & ->)%ends_with_newline_inv. exists s.
  rewrite encode_source_newline. split_and!.
  - done.
  - apply join_strip_map_lines.
  - intros Hs He. rewrite encode_source_open by done.
    split; [done|]. intros Heq. by apply (app_newline_ne s).
  - intros (s' & ->)%ends_with_newline_inv.
    rewrite map_lines_newline, strip_last_line_snoc. apply last_snoc.
  - by intros ->.
Qed.

Lemma encode_source_drops_one_newline_witness :
  let t := "a" +:+ newline +:+ newline in
  ends_with_newline t = true
  ∧ ∃ s, t = s +:+ newline ∧ join (encode_source t) = s
      ∧ (s ≠ "" → ends_with_newline s = false →
         encode_source s = encode_source t ∧ s ≠ t)
      ∧ (ends_with_newline s = true → last (encode_source t) = Some "")
      ∧ (s = "" → encode_source t = [""] ∧ encode_source s = []).
Proof.
  split; [reflexivity|].
  apply (encode_source_drops_one_newline ("a" +:+ newline +:+ newline)).
  reflexivity.
Defined.

End Encoding.

(** ** Objects and notebooks *)

Module ObjFacts.

Lemma get_set_eq {A} key (v : A) props : Obj.get key (Obj.set key v props) = Some v.
Proof.
  induction props as [|[k v0] props IH]; simpl.
  - by rewrite decide_True.
  - destruct (decide (k = key)) as [->|Hk]; simpl.
    + by rewrite decide_True.
    + by rewrite decide_False.
Qed.

Lemma get_set_ne {A} key key' (v : A) props :
  key ≠ key' → Obj.get key' (Obj.set key v props) = Obj.get key' props.
Proof.
  intros Hne. induction props as [|[k v0] props IH]; simpl.
  - by rewrite decide_False.
  - destruct (decide (k = key)) as [->|Hk]; simpl.
    + by rewrite !decide_False.
    + by rewrite IH.
Qed.

(** Assigning to a present property keeps the order of the names. *)
Lemma set_keys {A} key (v : A) props :
  is_Some (Obj.get key props) → (Obj.set key v props).*1 = props.*1.
Proof.
  induction props as [|[k v0] props IH]; cbn [Obj.get Obj.set].
  - by intros [? ?].
  - destruct (decide (k = key)) as [->|Hk]; [done|].
    intros Hsome. rewrite !fmap_cons. f_equal. by apply IH.
Qed.

End ObjFacts.

Section NotebookFacts.

Context `{Platform}.

Lemma own_prop_set_prop_eq v key x :
  (∃ props, v = JObj props) → own_prop (set_prop v key x) key = Some x.
Proof. intros [props ->]. apply ObjFacts.get_set_eq. Qed.

Lemma own_prop_set_prop_ne v key key' x :
  key ≠ key' → own_prop (set_prop v key x) key' = own_prop v key'.
Proof. intros Hne. destruct v; try done. by apply ObjFacts.get_set_ne. Qed.

Lemma own_prop_is_obj v key x : own_prop v key = Some x → ∃ props, v = JObj props.
Proof. destruct v; try done. eauto. Qed.

Lemma notebook_cells_is_obj nb cells :
  notebook_cells nb = Some cells → ∃ props, nb = JObj props.
Proof.
  unfold notebook_cells. destruct (own_prop nb "cells") eqn:Hp; [|done].
  intros _. by eapply own_prop_is_obj.
Qed.

Lemma notebook_cells_with_cells nb cells cells' :
  notebook_cells nb = Some cells →
  notebook_cells (with_cells nb cells') = Some cells'.
Proof.
  intros Hnb%notebook_cells_is_obj. unfold notebook_cells, with_cells.
  by rewrite own_prop_set_prop_eq.
Qed.

Lemma own_keys_with_cells nb cells cells' :
  notebook_cells nb = Some cells → own_keys (with_cells nb cells') = own_keys nb.
Proof.
  unfold notebook_cells. destruct nb as [| | | | |props]; try done. simpl.
  intros Hc. apply ObjFacts.set_keys. by destruct (Obj.get "cells" props).
Qed.

(** The structure guard lets through the documents that have a cell
    array, and only them. *)
Lemma check_structure_cells nb :
  check_structure nb
  = match notebook_cells nb with
    | Some cells => inr cells
    | None => inl (ThrownMcpError cells_not_found)
    end.
Proof.
  unfold check_structure, notebook_cells.
  destruct nb as [| [|] | [] | [|] | |props]; try done.
  simpl. by destruct (Obj.get "cells" props) as [[]|].
Qed.

End NotebookFacts.

(** ** The tool cases, step by step *)

Section ToolFacts.

Context `{Platform}.

Lemma AddCodeCellArgsSchema_parse_ok args :
  (∀ p, position args = Some p → (0 ≤ p)%Z) →
  AddCodeCellArgsSchema_parse args = inr args.
Proof.
  intros Hpos. unfold AddCodeCellArgsSchema_parse.
  destruct (position args) as [p|]; [|done].
  specialize (Hpos p eq_refl). by rewrite (proj2 (Z.ltb_ge p 0)).
Qed.

Lemma EditCodeCellArgsSchema_parse_ok args :
  (0 ≤ cellIndex args)%Z → EditCodeCellArgsSchema_parse args = inr args.
Proof.
  intros Hpos. unfold EditCodeCellArgsSchema_parse.
  by rewrite (proj2 (Z.ltb_ge _ 0)).
Qed.

(** After a download and a parse that succeed, the case is the edit in
    memory followed by the upload of the edited notebook. *)
Lemma add_code_cell_run args d notebookContent notebookJson :
  (∀ p, position args = Some p → (0 ≤ p)%Z) →
  files_get_media (add_notebookFileId args) d = inr notebookContent →
  JSON_parse notebookContent = Some notebookJson →
  add_code_cell args d
  = match insert_code_cell notebookJson (code_text args) (position args) with
    | inl error => (inl (add_code_cell_catch args error), d)
    | inr edited =>
        match files_update (add_notebookFileId args) notebook_mime
                (JSON_stringify edited) d with
        | (inl e, d') => (inl (add_code_cell_catch args (ThrownGaxiosError e)), d')
        | (inr updatedFile, d') => (inr (added_text updatedFile), d')
        end
    end.
Proof.
  intros Hpos Hget Hparse.
  unfold add_code_cell, try_catch, mbind, tool_bind, lift, download, upload,
    parse_notebook.
  rewrite (AddCodeCellArgsSchema_parse_ok _ Hpos), Hget, Hparse. simpl.
  destruct (insert_code_cell _ _ _) as [error|edited]; [done|].
  by destruct (files_update _ _ _ _) as [[e|updatedFile] d'].
Qed.

Lemma edit_code_cell_run args d notebookContent notebookJson :
  (0 ≤ cellIndex args)%Z →
  files_get_media (edit_notebookFileId args) d = inr notebookContent →
  JSON_parse notebookContent = Some notebookJson →
  edit_code_cell args d
  = match replace_code_cell notebookJson (cellIndex args) (newCode args) with
    | inl error => (inl (edit_code_cell_catch args error), d)
    | inr edited =>
        match files_update (edit_notebookFileId args) notebook_mime
                (JSON_stringify edited) d with
        | (inl e, d') => (inl (edit_code_cell_catch args (ThrownGaxiosError e)), d')
        | (inr updatedFile, d') =>
            (inr (edited_text (cellIndex args) updatedFile), d')
        end
    end.
Proof.
  intros Hpos Hget Hparse.
  unfold edit_code_cell, try_catch, mbind, tool_bind, lift, download, upload,
    parse_notebook.
  rewrite (EditCodeCellArgsSchema_parse_ok _ Hpos), Hget, Hparse. simpl.
  destruct (replace_code_cell _ _ _) as [error|edited]; [done|].
  by destruct (files_update _ _ _ _) as [[e|updatedFile] d'].
Qed.

(** A text that [JSON.parse] rejects stops either case before the edit. *)
Lemma add_code_cell_unparsed args d notebookContent :
  (∀ p, position args = Some p → (0 ≤ p)%Z) →
  files_get_media (add_notebookFileId args) d = inr notebookContent →
  JSON_parse notebookContent = None →
  add_code_cell args d
  = (inl (add_code_cell_catch args (ThrownMcpError parse_failed)), d).
Proof.
  intros Hpos Hget Hparse.
  unfold add_code_cell, try_catch, mbind, tool_bind, lift, download, parse_notebook.
  by rewrite (AddCodeCellArgsSchema_parse_ok _ Hpos), Hget, Hparse.
Qed.

Lemma edit_code_cell_unparsed args d notebookContent :
  (0 ≤ cellIndex args)%Z →
  files_get_media (edit_notebookFileId args) d = inr notebookContent →
  JSON_parse notebookContent = None →
  edit_code_cell args d
  = (inl (edit_code_cell_catch args (ThrownMcpError parse_failed)), d).
Proof.
  intros Hpos Hget Hparse.
  unfold edit_code_cell, try_catch, mbind, tool_bind, lift, download, parse_notebook.
  by rewrite (EditCodeCellArgsSchema_parse_ok _ Hpos), Hget, Hparse.
Qed.

(** A negative index does not pass the schema, and Drive is not asked. *)
Lemma edit_code_cell_negative args d :
  (cellIndex args < 0)%Z →
  edit_code_cell args d
  = (inl (edit_code_cell_catch args (ZodError [zod_nonnegative_message])), d).
Proof.
  intros Hneg.
  unfold edit_code_cell, try_catch, mbind, tool_bind, lift,
    EditCodeCellArgsSchema_parse.
  by rewrite (proj2 (Z.ltb_lt _ 0)).
Qed.

(** What the catch block makes of an [McpError] thrown in the case. *)
Lemma tool_catch_McpError tool_name failed notebookFileId e :
  tool_catch tool_name failed notebookFileId (ThrownMcpError e)
  = mkMcpError InternalError (failed +:+ McpError_message (code e) (message e)).
Proof. reflexivity. Qed.

Lemma insert_code_cell_ok nb cells code position :
  notebook_cells nb = Some cells →
  insert_code_cell nb code position
  = inr (with_cells nb (insert_or_append position (newCell code) cells)).
Proof.
  intros Hnb. unfold insert_code_cell. by rewrite check_structure_cells, Hnb.
Qed.

Lemma insert_code_cell_no_cells nb code position :
  notebook_cells nb = None →
  insert_code_cell nb code position = inl (ThrownMcpError cells_not_found).
Proof.
  intros Hnb. unfold insert_code_cell. by rewrite check_structure_cells, Hnb.
Qed.

Lemma replace_code_cell_no_cells nb cellIndex newCode :
  notebook_cells nb = None →
  replace_code_cell nb cellIndex newCode = inl (ThrownMcpError cells_not_found).
Proof.
  intros Hnb. unfold replace_code_cell. by rewrite check_structure_cells, Hnb.
Qed.

Lemma replace_code_cell_out_of_range nb cells cellIndex newCode :
  notebook_cells nb = Some cells →
  (cellIndex < 0 ∨ Z.of_nat (length cells) ≤ cellIndex)%Z →
  replace_code_cell nb cellIndex newCode
  = inl (ThrownMcpError (invalid_cell_index cellIndex (length cells))).
Proof.
  intros Hnb Hrange. unfold replace_code_cell.
  rewrite check_structure_cells, Hnb. simpl.
  destruct Hrange as [Hneg|Hge].
  - by rewrite (proj2 (Z.ltb_lt _ 0)).
  - by rewrite (proj2 (Z.leb_le _ _) Hge), orb_true_r.
Qed.

Lemma replace_code_cell_in_range nb cells cellIndex newCode targetCell :
  notebook_cells nb = Some cells →
  (0 ≤ cellIndex)%Z →
  cells !! Z.to_nat cellIndex = Some targetCell →
  replace_code_cell nb cellIndex newCode
  = cell_type ← get_prop (Some targetCell) "cell_type";
    if is_not_code cell_type
    then inl (ThrownMcpError (not_a_code_cell cellIndex cell_type))
    else inr (with_cells nb
                (alter (λ cell, set_prop cell "source" (source_value newCode))
                   (Z.to_nat cellIndex) cells)).
Proof.
  intros Hnb Hpos Hcell. unfold replace_code_cell.
  rewrite check_structure_cells, Hnb. simpl.
  apply lookup_lt_Some in Hcell as Hlt.
  rewrite (proj2 (Z.ltb_ge _ 0)) by done.
  rewrite (proj2 (Z.leb_gt _ _)) by lia.
  simpl. rewrite Hcell. done.
Qed.

End ToolFacts.

(** ** Inserting a code cell *)

Section Insert.

Context `{Platform}.

Lemma splice_insert_in_range k item cells :
  (0 ≤ k ≤ Z.of_nat (length cells))%Z →
  splice_insert k item cells
  = take (Z.to_nat k) cells ++ item :: drop (Z.to_nat k) cells.
Proof.
  intros [Hk0 Hkn]. unfold splice_insert.
  rewrite (proj2 (Z.ltb_ge k 0)) by done. by rewrite Z.min_l.
Qed.

Lemma splice_insert_end item cells :
  splice_insert (Z.of_nat (length cells)) item cells = push item cells.
Proof.
  rewrite splice_insert_in_range by lia. rewrite Nat2Z.id.
  by rewrite take_ge, drop_ge.
Qed.

Lemma insert_or_append_in_range k item cells :
  (0 ≤ k ≤ Z.of_nat (length cells))%Z →
  insert_or_append (Some k) item cells
  = take (Z.to_nat k) cells ++ item :: drop (Z.to_nat k) cells.
Proof.
  intros Hk. unfold insert_or_append.
  rewrite (proj2 (Z.leb_le 0 k)), (proj2 (Z.leb_le k _)) by lia.
  by apply splice_insert_in_range.
Qed.

(** A position that is absent, negative or beyond the number of cells
    is not given to [splice]. *)
Lemma insert_or_append_fallback position item cells :
  match position with
  | Some p => (p < 0 ∨ Z.of_nat (length cells) < p)%Z
  | None => True
  end →
  insert_or_append position item cells = push item cells.
Proof.
  unfold insert_or_append. destruct position as [p|]; [|done].
  intros [Hneg|Hbig].
  - by rewrite (proj2 (Z.leb_gt 0 p)).
  - by rewrite (proj2 (Z.leb_gt p _)), andb_false_r.
Qed.

Lemma insert_or_append_at_end item cells :
  insert_or_append (Some (Z.of_nat (length cells))) item cells = push item cells.
Proof.
  rewrite insert_or_append_in_range by lia. rewrite Nat2Z.id.
  by rewrite take_ge, drop_ge.
Qed.

(** C2: inserting a code cell at an index [k] between 0 and the number
    [n] of cells gives [n+1] cells, the new cell at [k], the cells
    before [k] in place and the cells from [k] on moved by one; the new
    cell is a code cell with a null execution count, no outputs, empty
    metadata and the encoding of the code text as its source; no other
    property of the notebook changes, and the notebook that the tool
    case uploads is this one. *)
Theorem insert_code_cell_at_index nb cells code (k : Z) :
  notebook_cells nb = Some cells →
  (0 ≤ k ≤ Z.of_nat (length cells))%Z →
  ∃ edited cells',
    insert_code_cell nb code (Some k) = inr edited
    ∧ notebook_cells edited = Some cells'
    ∧ length cells' = S (length cells)
    ∧ cells' !! Z.to_nat k = Some (newCell code)
    ∧ (∀ j, (j < Z.to_nat k)%nat → cells' !! j = cells !! j)
    ∧ (∀ j, (Z.to_nat k ≤ j)%nat → cells' !! S j = cells !! j)
    ∧ cell_kind (newCell code) = Some "code"
    ∧ own_prop (newCell code) "execution_count" = Some JNull
    ∧ own_prop (newCell code) "outputs" = Some (JArr [])
    ∧ own_prop (newCell code) "metadata" = Some (JObj [])
    ∧ own_prop (newCell code) "source" = Some (JArr (JStr <$> encode_source code))
    ∧ (∀ key, key ≠ "cells" → own_prop edited key = own_prop nb key)
    ∧ (∀ d fileId notebookContent updatedFile d',
         files_get_media fileId d = inr notebookContent →
         JSON_parse notebookContent = Some nb →
         files_update fileId notebook_mime (JSON_stringify edited) d
         = (inr updatedFile, d') →
         add_code_cell (mkAddCodeCellArgs fileId code (Some k)) d
         = (inr (added_text updatedFile), d')).
Proof.
  intros Hnb Hk.
  set (i := Z.to_nat k).
  assert (i ≤ length cells)%nat as Hi by lia.
  exists (with_cells nb (take i cells ++ newCell code :: drop i cells)),
    (take i cells ++ newCell code :: drop i cells).
  assert (insert_code_cell nb code (Some k)
          = inr (with_cells nb (take i cells ++ newCell code :: drop i cells)))
    as Hrun.
  { rewrite (insert_code_cell_ok _ _ _ _ Hnb).
    by rewrite insert_or_append_in_range. }
  split_and!; try done.
  - by eapply notebook_cells_with_cells.
  - rewrite length_app, length_take. simpl. rewrite length_drop. lia.
  - rewrite lookup_app_r; rewrite length_take; [|lia].
    by replace (i - i `min` length cells)%nat with 0%nat by lia.
  - intros j Hj. rewrite lookup_app_l by (rewrite length_take; lia).
    by rewrite lookup_take_lt.
  - intros j Hj. rewrite lookup_app_r; rewrite length_take; [|lia].
    replace (S j - i `min` length cells)%nat with (S (j - i)) by lia.
    simpl. rewrite lookup_drop. f_equal. lia.
  - intros key Hkey. by apply own_prop_set_prop_ne.
  - intros d fileId notebookContent updatedFile d' Hget Hparse Hupdate.
    rewrite (add_code_cell_run (mkAddCodeCellArgs fileId code (Some k)) d
               notebookContent nb); [|by intros p [= <-]; lia|done..].
    simpl. by rewrite Hrun, Hupdate.
Qed.

(** C6: with the position omitted, and with a position beyond the
    number [n] of cells, the edit is the one of an insertion at index
    [n], the new cell appended, and it does not fail; the tool cases
    with these positions and with position [n] behave alike.  (The step
    in memory appends on a negative position too; the schema lets none
    through.) *)
Theorem insert_code_cell_appends nb cells code position :
  notebook_cells nb = Some cells →
  position = None ∨ (∃ p, position = Some p ∧ (Z.of_nat (length cells) < p)%Z) →
  insert_code_cell nb code position
  = inr (with_cells nb (cells ++ [newCell code]))
  ∧ insert_code_cell nb code position
    = insert_code_cell nb code (Some (Z.of_nat (length cells)))
  ∧ notebook_cells (with_cells nb (cells ++ [newCell code]))
    = Some (cells ++ [newCell code])
  ∧ (∀ p, (p < 0)%Z →
       insert_code_cell nb code (Some p)
       = inr (with_cells nb (cells ++ [newCell code])))
  ∧ (∀ d fileId notebookContent,
       files_get_media fileId d = inr notebookContent →
       JSON_parse notebookContent = Some nb →
       add_code_cell (mkAddCodeCellArgs fileId code position) d
       = add_code_cell
           (mkAddCodeCellArgs fileId code (Some (Z.of_nat (length cells)))) d).
Proof.
  intros Hnb Hpos.
  assert (insert_code_cell nb code position
          = inr (with_cells nb (cells ++ [newCell code]))) as Hfallback.
  { rewrite (insert_code_cell_ok _ _ _ _ Hnb), insert_or_append_fallback; [done|].
    destruct Hpos as [->|(p & -> & Hp)]; [done|by right]. }
  assert (insert_code_cell nb code (Some (Z.of_nat (length cells)))
          = inr (with_cells nb (cells ++ [newCell code]))) as Hend.
  { by rewrite (insert_code_cell_ok _ _ _ _ Hnb), insert_or_append_at_end. }
  split_and!.
  - done.
  - by rewrite Hfallback, Hend.
  - by eapply notebook_cells_with_cells.
  - intros p Hp.
    rewrite (insert_code_cell_ok _ _ _ _ Hnb), insert_or_append_fallback; [done|].
    by left.
  - intros d fileId notebookContent Hget Hparse.
    rewrite (add_code_cell_run (mkAddCodeCellArgs fileId code position) d
               notebookContent nb); [| |done..].
    + rewrite (add_code_cell_run (mkAddCodeCellArgs fileId code (Some _)) d
                 notebookContent nb); [|by intros p [= <-]; lia|done..].
      simpl. by rewrite Hfallback, Hend.
    + simpl. intros p ->. destruct Hpos as [?|(p' & [= <-] & Hp)]; [done|lia].
Qed.

End Insert.

Lemma insert_code_cell_at_index_witness :
  notebook_cells Demo.notebook = Some Demo.cells
  ∧ (0 ≤ 1 ≤ Z.of_nat (length Demo.cells))%Z
  ∧ ∃ edited cells',
      insert_code_cell (H := Demo.platform) Demo.notebook "print(1)" (Some 1%Z)
      = inr edited
      ∧ notebook_cells edited = Some cells'
      ∧ length cells' = 3%nat
      ∧ cells' !! 1%nat = Some (newCell "print(1)").
Proof.
  split; [reflexivity|]. split; [simpl; lia|].
  destruct (insert_code_cell_at_index (H := Demo.platform)
              Demo.notebook Demo.cells "print(1)" 1 eq_refl ltac:(simpl; lia))
    as (edited & cells' & Hrun & Hcells & Hlen & Hnew & _).
  by exists edited, cells'.
Defined.

Lemma insert_code_cell_appends_witness :
  notebook_cells Demo.notebook = Some Demo.cells
  ∧ (Z.of_nat (length Demo.cells) < 7)%Z
  ∧ insert_code_cell (H := Demo.platform) Demo.notebook "print(1)" (Some 7%Z)
    = insert_code_cell (H := Demo.platform) Demo.notebook "print(1)" (Some 2%Z).
Proof.
  split; [reflexivity|]. split; [simpl; lia|].
  assert (Some 7%Z = None
          ∨ ∃ p, Some 7%Z = Some p ∧ (Z.of_nat (length Demo.cells) < p)%Z) as Hpos.
  { right. exists 7%Z. split; [reflexivity|simpl; lia]. }
  destruct (insert_code_cell_appends (H := Demo.platform)
              Demo.notebook Demo.cells "print(1)" (Some 7%Z) eq_refl Hpos)
    as (_ & Hsame & _).
  exact Hsame.
Defined.

(** ** Replacing the source of a code cell *)

Section Replace.

Context `{Platform}.

Lemma cell_kind_inv cell kind :
  cell_kind cell = Some kind →
  get_prop (Some cell) "cell_type" = inr (Some (JStr kind)).
Proof.
  unfold cell_kind. destruct cell as [| | | | |props]; try done. simpl.
  by destruct (Obj.get "cell_type" props) as [[]|]; intros [= ->].
Qed.

Lemma replace_code_cell_code nb cells cellIndex targetCell newCode :
  notebook_cells nb = Some cells →
  (0 ≤ cellIndex)%Z →
  cells !! Z.to_nat cellIndex = Some targetCell →
  cell_kind targetCell = Some "code" →
  replace_code_cell nb cellIndex newCode
  = inr (with_cells nb
           (alter (λ cell, set_prop cell "source" (source_value newCode))
              (Z.to_nat cellIndex) cells)).
Proof.
  intros Hnb Hpos Hcell Hkind.
  rewrite (replace_code_cell_in_range _ _ _ _ _ Hnb Hpos Hcell).
  by rewrite (cell_kind_inv _ _ Hkind).
Qed.

Lemma replace_code_cell_other_kind nb cells cellIndex targetCell kind newCode :
  notebook_cells nb = Some cells →
  (0 ≤ cellIndex)%Z →
  cells !! Z.to_nat cellIndex = Some targetCell →
  cell_kind targetCell = Some kind →
  kind ≠ "code" →
  replace_code_cell nb cellIndex newCode
  = inl (ThrownMcpError (not_a_code_cell cellIndex (Some (JStr kind)))).
Proof.
  intros Hnb Hpos Hcell Hkind Hne.
  rewrite (replace_code_cell_in_range _ _ _ _ _ Hnb Hpos Hcell).
  rewrite (cell_kind_inv _ _ Hkind). simpl.
  by rewrite bool_decide_false.
Qed.

(** C3: replacing the source of the code cell at a valid index [i]
    changes the [source] of that cell and nothing else: every other
    property of the cell, its execution count, outputs and metadata
    among them, every other cell, the number of cells, and every
    property of the notebook other than [cells] are as before; the
    notebook that the tool case uploads is this one. *)
Theorem replace_code_cell_frame nb cells cellIndex targetCell newCode :
  notebook_cells nb = Some cells →
  (0 ≤ cellIndex)%Z →
  cells !! Z.to_nat cellIndex = Some targetCell →
  cell_kind targetCell = Some "code" →
  ∃ edited cells' targetCell',
    replace_code_cell nb cellIndex newCode = inr edited
    ∧ notebook_cells edited = Some cells'
    ∧ length cells' = length cells
    ∧ cells' !! Z.to_nat cellIndex = Some targetCell'
    ∧ own_prop targetCell' "source" = Some (JArr (JStr <$> encode_source newCode))
    ∧ (∀ key, key ≠ "source" → own_prop targetCell' key = own_prop targetCell key)
    ∧ own_prop targetCell' "execution_count" = own_prop targetCell "execution_count"
    ∧ own_prop targetCell' "outputs" = own_prop targetCell "outputs"
    ∧ own_prop targetCell' "metadata" = own_prop targetCell "metadata"
    ∧ cell_kind targetCell' = Some "code"
    ∧ (∀ j, j ≠ Z.to_nat cellIndex → cells' !! j = cells !! j)
    ∧ (∀ key, key ≠ "cells" → own_prop edited key = own_prop nb key)
    ∧ own_keys edited = own_keys nb
    ∧ (∀ d fileId notebookContent updatedFile d',
         files_get_media fileId d = inr notebookContent →
         JSON_parse notebookContent = Some nb →
         files_update fileId notebook_mime (JSON_stringify edited) d
         = (inr updatedFile, d') →
         edit_code_cell (mkEditCodeCellArgs fileId cellIndex newCode) d
         = (inr (edited_text cellIndex updatedFile), d')).
Proof.
  intros Hnb Hpos Hcell Hkind.
  pose proof (replace_code_cell_code _ _ _ _ newCode Hnb Hpos Hcell Hkind) as Hrun.
  set (targetCell' := set_prop targetCell "source" (source_value newCode)) in *.
  set (cells' := alter (λ cell, set_prop cell "source" (source_value newCode))
                  (Z.to_nat cellIndex) cells) in *.
  assert (∀ key, key ≠ "source" → own_prop targetCell' key = own_prop targetCell key)
    as Hframe by (intros key Hkey; by apply own_prop_set_prop_ne).
  exists (with_cells nb cells'), cells', targetCell'.
  split_and!; try done.
  - by eapply notebook_cells_with_cells.
  - apply length_alter.
  - subst cells'. by rewrite list_lookup_alter_eq, Hcell.
  - apply own_prop_set_prop_eq. unfold cell_kind in Hkind.
    destruct (own_prop targetCell "cell_type") eqn:Hp; [|done].
    by eapply own_prop_is_obj.
  - by apply Hframe.
  - by apply Hframe.
  - by apply Hframe.
  - unfold cell_kind in *. by rewrite Hframe.
  - intros j Hj. by apply list_lookup_alter_ne.
  - intros key Hkey. by apply own_prop_set_prop_ne.
  - by eapply own_keys_with_cells.
  - intros d fileId notebookContent updatedFile d' Hget Hparse Hupdate.
    rewrite (edit_code_cell_run (mkEditCodeCellArgs fileId cellIndex newCode) d
               notebookContent nb); [|done..].
    simpl. by rewrite Hrun, Hupdate.
Qed.

(** C4 (amended): on a notebook of [n] cells, an index of [n] or more
    fails at the bounds check with a report of the index and of [n],
    and a negative index fails before, at the validation of the
    arguments, with the message of the schema; in both cases Drive is
    left as it was.  The bounds check itself rejects a negative index
    like one that is too large. *)
Theorem edit_code_cell_index_out_of_range
    d fileId notebookContent nb cells cellIndex newCode :
  files_get_media fileId d = inr notebookContent →
  JSON_parse notebookContent = Some nb →
  notebook_cells nb = Some cells →
  ((Z.of_nat (length cells) ≤ cellIndex)%Z →
     edit_code_cell (mkEditCodeCellArgs fileId cellIndex newCode) d
     = (inl (mkMcpError InternalError
               ("Failed to edit code cell: "
                +:+ McpError_message InvalidParams
                      ("Invalid cell index: " +:+ Integer_toString cellIndex
                       +:+ ". Notebook has "
                       +:+ Integer_toString (Z.of_nat (length cells))
                       +:+ " cells."))), d))
  ∧ ((cellIndex < 0)%Z →
     edit_code_cell (mkEditCodeCellArgs fileId cellIndex newCode) d
     = (inl (mkMcpError InvalidParams
               ("Failed to edit code cell: Invalid arguments for edit_code_cell: "
                +:+ zod_nonnegative_message)), d))
  ∧ ((cellIndex < 0 ∨ Z.of_nat (length cells) ≤ cellIndex)%Z →
     replace_code_cell nb cellIndex newCode
     = inl (ThrownMcpError (invalid_cell_index cellIndex (length cells)))).
Proof.
  intros Hget Hparse Hnb. split_and!.
  - intros Hge.
    rewrite (edit_code_cell_run (mkEditCodeCellArgs fileId cellIndex newCode) d
               notebookContent nb); [|simpl; lia|done..].
    simpl. rewrite (replace_code_cell_out_of_range _ _ _ _ Hnb); [done|by right].
  - intros Hneg. by rewrite edit_code_cell_negative.
  - intros Hrange. by apply replace_code_cell_out_of_range.
Qed.

(** C5: on a cell in range whose kind is not [code], the case fails
    at the kind check with a report that names the kind found, and
    Drive is left as it was. *)
Theorem edit_code_cell_not_code
    d fileId notebookContent nb cells cellIndex targetCell kind newCode :
  files_get_media fileId d = inr notebookContent →
  JSON_parse notebookContent = Some nb →
  notebook_cells nb = Some cells →
  (0 ≤ cellIndex)%Z →
  cells !! Z.to_nat cellIndex = Some targetCell →
  cell_kind targetCell = Some kind →
  kind ≠ "code" →
  replace_code_cell nb cellIndex newCode
  = inl (ThrownMcpError
           (mkMcpError InvalidParams
              ("Cell at index " +:+ Integer_toString cellIndex
               +:+ " is not a code cell (type: " +:+ kind +:+ ").")))
  ∧ edit_code_cell (mkEditCodeCellArgs fileId cellIndex newCode) d
    = (inl (mkMcpError InternalError
              ("Failed to edit code cell: "
               +:+ McpError_message InvalidParams
                     ("Cell at index " +:+ Integer_toString cellIndex
                      +:+ " is not a code cell (type: " +:+ kind +:+ ")."))), d).
Proof.
  intros Hget Hparse Hnb Hpos Hcell Hkind Hne.
  pose proof (replace_code_cell_other_kind _ _ _ _ _ newCode
                Hnb Hpos Hcell Hkind Hne) as Hrun.
  split; [done|].
  rewrite (edit_code_cell_run (mkEditCodeCellArgs fileId cellIndex newCode) d
             notebookContent nb); [|done..].
  simpl. by rewrite Hrun.
Qed.

(** C9: when the downloaded text does not parse, or parses to a value
    that is not an object with a [cells] array, both cases fail with
    the error of the guard that stopped them, before the insertion or
    the replacement, and Drive is left as it was. *)
Theorem malformed_document_aborts d fileId notebookContent :
  files_get_media fileId d = inr notebookContent →
  JSON_parse notebookContent = None
  ∨ (∃ nb, JSON_parse notebookContent = Some nb ∧ notebook_cells nb = None) →
  let cause :=
    match JSON_parse notebookContent with
    | None => parse_failed
    | Some _ => cells_not_found
    end in
  (∀ code position,
     (∀ p, position = Some p → (0 ≤ p)%Z) →
     add_code_cell (mkAddCodeCellArgs fileId code position) d
     = (inl (mkMcpError InternalError
               ("Failed to add code cell: "
                +:+ McpError_message InternalError (message cause))), d))
  ∧ (∀ cellIndex newCode,
       (0 ≤ cellIndex)%Z →
       edit_code_cell (mkEditCodeCellArgs fileId cellIndex newCode) d
       = (inl (mkMcpError InternalError
                 ("Failed to edit code cell: "
                  +:+ McpError_message InternalError (message cause))), d))
  ∧ (∀ nb code position cellIndex,
       JSON_parse notebookContent = Some nb →
       insert_code_cell nb code position = inl (ThrownMcpError cells_not_found)
       ∧ replace_code_cell nb cellIndex code
         = inl (ThrownMcpError cells_not_found)).
Proof.
  intros Hget [Hparse|(nb & Hparse & Hnb)] cause; subst cause; rewrite Hparse.
  - split_and!.
    + intros code position Hpos.
      by rewrite (add_code_cell_unparsed _ _ notebookContent).
    + intros cellIndex newCode Hpos.
      by rewrite (edit_code_cell_unparsed _ _ notebookContent).
    + intros nb ? ? ? ?. congruence.
  - split_and!.
    + intros code position Hpos.
      rewrite (add_code_cell_run (mkAddCodeCellArgs fileId code position) d
                 notebookContent nb); [|done..].
      simpl. by rewrite insert_code_cell_no_cells.
    + intros cellIndex newCode Hpos.
      rewrite (edit_code_cell_run (mkEditCodeCellArgs fileId cellIndex newCode) d
                 notebookContent nb); [|done..].
      simpl. by rewrite replace_code_cell_no_cells.
    + intros nb' code position cellIndex Hparse'.
      assert (nb' = nb) as -> by congruence.
      by rewrite insert_code_cell_no_cells, replace_code_cell_no_cells.
Qed.

End Replace.

(** ** The cases on a small Drive *)

Lemma replace_code_cell_frame_witness :
  let newCode := "a=2" +:+ Str.newline +:+ "b=3" in
  notebook_cells Demo.notebook = Some Demo.cells
  ∧ (0 ≤ 0)%Z
  ∧ Demo.cells !! Z.to_nat 0 = Some (Demo.code_cell ["a=1"])
  ∧ cell_kind (Demo.code_cell ["a=1"]) = Some "code"
  ∧ ∃ edited cells' targetCell',
      replace_code_cell (H := Demo.platform) Demo.notebook 0 newCode = inr edited
      ∧ notebook_cells edited = Some cells'
      ∧ cells' !! Z.to_nat 0 = Some targetCell'
      ∧ own_prop targetCell' "source"
        = Some (JArr [JStr ("a=2" +:+ Str.newline); JStr "b=3"])
      ∧ own_prop targetCell' "outputs" = own_prop (Demo.code_cell ["a=1"]) "outputs"
      ∧ cells' !! 1%nat = Demo.cells !! 1%nat.
Proof.
  intros newCode. do 4 (split; [reflexivity|]).
  destruct (replace_code_cell_frame (H := Demo.platform)
              Demo.notebook Demo.cells 0 (Demo.code_cell ["a=1"]) newCode
              eq_refl ltac:(reflexivity) eq_refl eq_refl)
    as (edited & cells' & targetCell' & Hrun & Hcells & _ & Hcell & Hsource
        & _ & _ & Houtputs & _ & _ & Hothers & _).
  exists edited, cells', targetCell'.
  split_and!; [exact Hrun|exact Hcells|exact Hcell|exact Hsource|exact Houtputs|].
  apply Hothers. discriminate.
Defined.

(** C4, as the claim states it, fails at index -1: the case stops at the
    validation of the arguments, so the failure is not the one of the
    bounds check and its report has no count of cells. *)
Lemma edit_code_cell_negative_index_is_validation_error :
  let args := mkEditCodeCellArgs "nb" (-1) "a=2" in
  files_get_media (Platform := Demo.platform) "nb" Demo.drive0
  = inr (Demo.stringify Demo.notebook)
  ∧ JSON_parse (Platform := Demo.platform) (Demo.stringify Demo.notebook)
    = Some Demo.notebook
  ∧ notebook_cells Demo.notebook = Some Demo.cells
  ∧ ¬ (0 ≤ cellIndex args < Z.of_nat (length Demo.cells))%Z
  ∧ edit_code_cell (H := Demo.platform) args Demo.drive0
    = (inl (mkMcpError InvalidParams
              ("Failed to edit code cell: Invalid arguments for edit_code_cell: "
               +:+ "Number must be greater than or equal to 0")), Demo.drive0)
  ∧ edit_code_cell (H := Demo.platform) args Demo.drive0
    ≠ (inl (edit_code_cell_catch (H := Demo.platform) args
              (ThrownMcpError
                 (invalid_cell_index (H := Demo.platform) (-1) (length Demo.cells)))),
       Demo.drive0).
Proof.
  intros args.
  assert (edit_code_cell (H := Demo.platform) args Demo.drive0
          = (inl (mkMcpError InvalidParams
                    ("Failed to edit code cell: Invalid arguments for edit_code_cell: "
                     +:+ "Number must be greater than or equal to 0")), Demo.drive0))
    as Hrun by (by rewrite edit_code_cell_negative).
  split_and!; [reflexivity|reflexivity|reflexivity|simpl; lia|exact Hrun|].
  rewrite Hrun. intros Heq. apply (f_equal fst) in Heq. simpl in Heq.
  discriminate Heq.
Qed.

Lemma edit_code_cell_index_out_of_range_witness :
  files_get_media (Platform := Demo.platform) "nb" Demo.drive0
  = inr (Demo.stringify Demo.notebook)
  ∧ JSON_parse (Platform := Demo.platform) (Demo.stringify Demo.notebook)
    = Some Demo.notebook
  ∧ notebook_cells Demo.notebook = Some Demo.cells
  ∧ edit_code_cell (H := Demo.platform) (mkEditCodeCellArgs "nb" 2 "a=2") Demo.drive0
    = (inl (mkMcpError InternalError
              "Failed to edit code cell: MCP error -32602: Invalid cell index: 2. Notebook has 2 cells."),
       Demo.drive0).
Proof.
  do 3 (split; [reflexivity|]).
  destruct (edit_code_cell_index_out_of_range (H := Demo.platform)
              Demo.drive0 "nb" (Demo.stringify Demo.notebook) Demo.notebook
              Demo.cells 2 "a=2" eq_refl eq_refl eq_refl) as (Hlarge & _ & _).
  apply Hlarge. simpl. lia.
Defined.

Lemma edit_code_cell_not_code_witness :
  files_get_media (Platform := Demo.platform) "nb" Demo.drive0
  = inr (Demo.stringify Demo.notebook)
  ∧ JSON_parse (Platform := Demo.platform) (Demo.stringify Demo.notebook)
    = Some Demo.notebook
  ∧ notebook_cells Demo.notebook = Some Demo.cells
  ∧ Demo.cells !! Z.to_nat 1 = Some (Demo.markdown_cell ["# title"])
  ∧ cell_kind (Demo.markdown_cell ["# title"]) = Some "markdown"
  ∧ edit_code_cell (H := Demo.platform) (mkEditCodeCellArgs "nb" 1 "a=2") Demo.drive0
    = (inl (mkMcpError InternalError
              "Failed to edit code cell: MCP error -32602: Cell at index 1 is not a code cell (type: markdown)."),
       Demo.drive0).
Proof.
  do 5 (split; [reflexivity|]).
  apply (edit_code_cell_not_code (H := Demo.platform)
           Demo.drive0 "nb" (Demo.stringify Demo.notebook) Demo.notebook
           Demo.cells 1 (Demo.markdown_cell ["# title"]) "markdown" "a=2"
           eq_refl eq_refl eq_refl ltac:(lia) eq_refl eq_refl ltac:(discriminate)).
Defined.

Lemma malformed_document_aborts_witness :
  files_get_media (Platform := Demo.platform) "text" Demo.drive0 = inr "not json"
  ∧ JSON_parse (Platform := Demo.platform) "not json" = None
  ∧ add_code_cell (H := Demo.platform) (mkAddCodeCellArgs "text" "a=2" None) Demo.drive0
    = (inl (mkMcpError InternalError
              "Failed to add code cell: MCP error -32603: Failed to parse notebook content. Is it a valid .ipynb file?"),
       Demo.drive0).
Proof.
  do 2 (split; [reflexivity|]).
  destruct (malformed_document_aborts (H := Demo.platform)
              Demo.drive0 "text" "not json" eq_refl (or_introl eq_refl))
    as (Hadd & _ & _).
  apply (Hadd "a=2" None). intros p Hp. discriminate Hp.
Defined.

(** The two scenarios of the notebook with a code cell [a=1] and a
    markdown cell [# title]. *)
Example insert_print_at_1 :
  (insert_code_cell (H := Demo.platform) Demo.notebook "print(1)" (Some 1%Z)
   ≫= λ edited, mret (notebook_cells edited))
  = inr (Some [ Demo.code_cell ["a=1"];
                newCell "print(1)";
                Demo.markdown_cell ["# title"] ]).
Proof. reflexivity. Qed.

Example replace_cell_0 :
  (replace_code_cell (H := Demo.platform) Demo.notebook 0
     ("a=2" +:+ Str.newline +:+ "b=3")
   ≫= λ edited, mret (notebook_cells edited))
  = inr (Some [ Demo.code_cell ["a=2" +:+ Str.newline; "b=3"];
                Demo.markdown_cell ["# title"] ]).
Proof. reflexivity. Qed.

Example edit_uploads_to_drive :
  let '(result, d) :=
    edit_code_cell (H := Demo.platform)
      (mkEditCodeCellArgs "nb" 0 "a=2") Demo.drive0 in
  result = inr "Successfully edited cell 0 in notebook 'demo.ipynb' (ID: nb)."
  ∧ (d : Demo.store) !! "nb"
    = Some ("demo.ipynb",
            Demo.stringify
              (JObj [ ("cells", JArr [Demo.code_cell ["a=2"];
                                      Demo.markdown_cell ["# title"]]);
                      ("metadata", JObj []);
                      ("nbformat", JNum (S754_finite false 4 0));
                      ("nbformat_minor", JNum (S754_finite false 5 0)) ])).
Proof. vm_compute. split; reflexivity. Qed.

(** * Further properties *)

(** ** The fragments of a source array *)

Module LinesFacts.
Import Str StrFacts SourceFacts Lines.

Lemma has_LF_snoc s c : has_LF (snoc s c) = has_LF s || is_LF c.
Proof.
  induction s as [|a s IH].
  - simpl. by rewrite orb_false_r.
  - change (snoc (String a s) c) with (String a (snoc s c)).
    cbn [has_LF]. by rewrite IH, orb_assoc.
Qed.

Lemma count_LF_snoc s c :
  count_LF (snoc s c) = (count_LF s + if is_LF c then 1 else 0)%nat.
Proof.
  induction s as [|a s IH].
  - simpl. lia.
  - change (snoc (String a s) c) with (String a (snoc s c)).
    cbn [count_LF]. rewrite IH. lia.
Qed.

(** No piece of a split holds a line feed. *)
Lemma split_lines_no_LF s : Forall (λ piece, has_LF piece = false) (split_lines s).
Proof.
  induction s as [|c s IH]; simpl.
  - by constructor.
  - destruct (is_LF c) eqn:Hc.
    + by constructor.
    + destruct (split_lines s) as [|piece pieces].
      * constructor; [simpl; by rewrite Hc|done].
      * inversion IH as [|? ? Hpiece Hpieces]; subst.
        constructor; [simpl; by rewrite Hc|done].
Qed.

Lemma length_split_lines s : length (split_lines s) = S (count_LF s).
Proof.
  induction s as [|c s IH]; simpl; [done|].
  destruct (is_LF c); simpl.
  - by rewrite IH.
  - pose proof (split_lines_not_nil s).
    destruct (split_lines s) as [|piece pieces]; [done|]. simpl in *. lia.
Qed.

Lemma split_lines_single s : has_LF s = false → split_lines s = [s].
Proof.
  induction s as [|c s IH]; simpl; [done|].
  intros [Hc Hs]%orb_false_elim. rewrite Hc, IH; done.
Qed.

Lemma length_strip_last_line source :
  length (strip_last_line source) = length source.
Proof.
  unfold strip_last_line. case_bool_decide; [|done]. apply length_alter.
Qed.

Lemma length_map_lines s : length (map_lines s) = S (count_LF s).
Proof. unfold map_lines, terminated. by rewrite length_fmap, length_split_lines. Qed.

(** The encoding of a text that is not empty: its own stripped lines when
    it does not end in a line feed, and the ones of the text before its
    final line feed otherwise. *)
Lemma encode_source_cases t :
  t ≠ "" →
  (ends_with_newline t = false ∧ encode_source t = strip_last_line (map_lines t))
  ∨ (∃ s, t = s +:+ newline ∧ encode_source t = strip_last_line (map_lines s)).
Proof.
  intros Ht. destruct (ends_with_newline t) eqn:He.
  - right. apply ends_with_newline_inv in He as [s ->].
    exists s. by rewrite encode_source_newline.
  - left. by rewrite encode_source_open.
Qed.

Lemma strip_map_lines_inj s1 s2 :
  strip_last_line (map_lines s1) = strip_last_line (map_lines s2) → s1 = s2.
Proof.
  intros Heq. apply (f_equal join) in Heq.
  by rewrite !join_strip_map_lines in Heq.
Qed.

Lemma strip_map_lines_not_nil s : strip_last_line (map_lines s) ≠ [].
Proof.
  intros Heq. apply (f_equal length) in Heq.
  rewrite length_strip_last_line, length_map_lines in Heq. done.
Qed.

Lemma app_newline_not_empty s : s +:+ newline ≠ "".
Proof. by destruct s. Qed.

Lemma ends_with_newline_app_newline s : ends_with_newline (s +:+ newline) = true.
Proof. change (s +:+ newline) with (snoc s LF). by rewrite ends_with_newline_snoc. Qed.

End LinesFacts.

Section Fragments.
Import Str StrFacts SourceFacts Lines LinesFacts.

(** X1: the source array of a code text that is not empty is a sequence
    of lines without a line feed inside, each but the last followed by
    one line feed, and the last without any. *)
Theorem encode_source_fragments (code : string) :
  code ≠ "" →
  ∃ lines line,
    encode_source code = terminated lines ++ [line]
    ∧ Forall (λ l, has_LF l = false) lines
    ∧ has_LF line = false.
Proof.
  intros Hcode.
  assert (∃ s, encode_source code = strip_last_line (map_lines s)) as [s ->].
  { destruct (encode_source_cases code Hcode) as [[_ ->]|(s & _ & ->)]; eauto. }
  destruct (split_lines_shape s) as (lines & line & Hsplit & _ & _).
  exists lines, line. rewrite (strip_map_lines _ _ _ Hsplit).
  pose proof (split_lines_no_LF s) as Hall. rewrite Hsplit in Hall.
  apply Forall_app in Hall as [Hlines Hline].
  split_and!; [done|done|]. by inversion Hline.
Qed.

Lemma encode_source_fragments_witness :
  let code := "a=2" +:+ newline +:+ newline +:+ "b=3" +:+ newline in
  code ≠ ""
  ∧ ∃ lines line,
      encode_source code = terminated lines ++ [line]
      ∧ Forall (λ l, has_LF l = false) lines
      ∧ has_LF line = false.
Proof.
  split; [discriminate|].
  apply encode_source_fragments. discriminate.
Defined.

(** X2: the source array has one fragment for each line feed of the
    code text, and one more when the text is not empty and does not end
    in a line feed. *)
Theorem length_encode_source (code : string) :
  length (encode_source code)
  = (count_LF code
     + if bool_decide (code = "") || ends_with_newline code then 0 else 1)%nat.
Proof.
  destruct (decide (code = "")) as [->|Hcode]; [done|].
  rewrite bool_decide_false by done. simpl.
  destruct (encode_source_cases code Hcode) as [[He ->]|(s & -> & ->)].
  - rewrite He, length_strip_last_line, length_map_lines. lia.
  - rewrite ends_with_newline_app_newline, length_strip_last_line, length_map_lines.
    change (s +:+ newline) with (snoc s LF). rewrite count_LF_snoc. simpl. lia.
Qed.

Lemma ends_with_newline_has_LF s : ends_with_newline s = true → has_LF s = true.
Proof.
  intros [s' ->]%ends_with_newline_inv.
  change (s' +:+ newline) with (snoc s' LF). rewrite has_LF_snoc.
  apply orb_true_r.
Qed.

(** X3: a code text of one line, not empty and without a line feed, is
    the only fragment of its source array. *)
Theorem encode_source_single_line (code : string) :
  code ≠ "" → has_LF code = false → encode_source code = [code].
Proof.
  intros Hcode Hlf.
  assert (ends_with_newline code = false) as He.
  { destruct (ends_with_newline code) eqn:He; [|done].
    apply ends_with_newline_has_LF in He. congruence. }
  rewrite encode_source_open by done.
  by rewrite (strip_map_lines code [] code) by by apply split_lines_single.
Qed.

Lemma encode_source_single_line_witness :
  "print(1)" ≠ "" ∧ has_LF "print(1)" = false
  ∧ encode_source "print(1)" = ["print(1)"].
Proof.
  split; [discriminate|]. split; [reflexivity|].
  apply encode_source_single_line; [discriminate|reflexivity].
Defined.

(** X4: two code texts have the same source array exactly when they are
    equal, or one of them is the other one, not empty and not ending in a
    line feed, followed by one line feed. *)
Theorem encode_source_collisions (t1 t2 : string) :
  encode_source t1 = encode_source t2
  ↔ t1 = t2 ∨ extends_by_newline t1 t2 ∨ extends_by_newline t2 t1.
Proof.
  unfold extends_by_newline. split.
  - intros Heq.
    destruct (decide (t1 = "")) as [->|H1], (decide (t2 = "")) as [->|H2].
    + by left.
    + destruct (encode_source_cases t2 H2) as [[_ He]|(s & _ & He)];
        rewrite He in Heq; symmetry in Heq;
        by apply strip_map_lines_not_nil in Heq.
    + destruct (encode_source_cases t1 H1) as [[_ He]|(s & _ & He)];
        rewrite He in Heq; by apply strip_map_lines_not_nil in Heq.
    + destruct (encode_source_cases t1 H1) as [[E1 He1]|(s1 & -> & He1)],
        (encode_source_cases t2 H2) as [[E2 He2]|(s2 & -> & He2)];
        rewrite He1, He2 in Heq; apply strip_map_lines_inj in Heq; subst.
      * by left.
      * right; right. done.
      * right; left. done.
      * by left.
  - intros [->|[(-> & H2 & E2)|(-> & H1 & E1)]]; [done|..].
    + by rewrite encode_source_newline, encode_source_open.
    + by rewrite encode_source_newline, encode_source_open.
Qed.

End Fragments.

(** ** Edits in memory, one after the other *)

Section Composition.

Context `{Platform}.

Lemma set_set {A} key (v1 v2 : A) props :
  Obj.set key v2 (Obj.set key v1 props) = Obj.set key v2 props.
Proof.
  induction props as [|[k v0] props IH]; cbn [Obj.set].
  - by rewrite decide_True.
  - destruct (decide (k = key)) as [->|Hk]; cbn [Obj.set].
    + by rewrite decide_True.
    + by rewrite decide_False, IH.
Qed.

Lemma set_prop_set_prop v key x1 x2 :
  set_prop (set_prop v key x1) key x2 = set_prop v key x2.
Proof. destruct v; try done. simpl. by rewrite set_set. Qed.

Lemma with_cells_with_cells nb cells1 cells2 :
  with_cells (with_cells nb cells1) cells2 = with_cells nb cells2.
Proof. apply set_prop_set_prop. Qed.

Lemma cell_kind_set_source cell x :
  cell_kind (set_prop cell "source" x) = cell_kind cell.
Proof. unfold cell_kind. by rewrite own_prop_set_prop_ne. Qed.

(** What a replacement that succeeds was given, and what it returns. *)
Lemma replace_code_cell_inv nb cellIndex newCode edited :
  replace_code_cell nb cellIndex newCode = inr edited →
  ∃ cells targetCell,
    notebook_cells nb = Some cells
    ∧ (0 ≤ cellIndex)%Z
    ∧ cells !! Z.to_nat cellIndex = Some targetCell
    ∧ cell_kind targetCell = Some "code"
    ∧ edited
      = with_cells nb
          (alter (λ cell, set_prop cell "source" (source_value newCode))
             (Z.to_nat cellIndex) cells).
Proof.
  unfold replace_code_cell. rewrite check_structure_cells.
  destruct (notebook_cells nb) as [cells|] eqn:Hnb; [|done]. simpl.
  destruct (cellIndex <? 0)%Z eqn:Hneg; [done|].
  destruct (Z.of_nat (length cells) <=? cellIndex)%Z eqn:Hlarge; [done|].
  simpl. apply Z.ltb_ge in Hneg.
  destruct (cells !! Z.to_nat cellIndex) as [targetCell|] eqn:Hcell; [|done].
  destruct targetCell as [| | | | |props]; try done. simpl.
  destruct (Obj.get "cell_type" props) as [[| | |kind| |]|] eqn:Hkind; try done.
  simpl. case_bool_decide as Hcode; [|done]. simpl. intros [= <-].
  exists cells, (JObj props). split_and!; try done.
  unfold cell_kind. simpl. by rewrite Hkind, Hcode.
Qed.

Lemma alter_middle {A} (f : A → A) (xs ys : list A) x :
  alter f (length xs) (xs ++ x :: ys) = xs ++ f x :: ys.
Proof.
  replace (length xs) with (length xs + 0)%nat by lia.
  by rewrite alter_app_r.
Qed.

Lemma newCell_set_source code newCode :
  set_prop (newCell code) "source" (source_value newCode) = newCell newCode.
Proof. reflexivity. Qed.

Lemma cell_kind_newCell code : cell_kind (newCell code) = Some "code".
Proof. reflexivity. Qed.

(** X5: replacing the source of a cell that was just inserted gives the
    notebook that the insertion of the new code text gives: at an index
    [k] between 0 and the number of cells, and at the end with the
    position omitted. *)
Theorem replace_after_insert nb cells code newCode (k : Z) :
  notebook_cells nb = Some cells →
  (0 ≤ k ≤ Z.of_nat (length cells))%Z →
  (insert_code_cell nb code (Some k)
   ≫= λ edited, replace_code_cell edited k newCode)
  = insert_code_cell nb newCode (Some k)
  ∧ (insert_code_cell nb code None
     ≫= λ edited, replace_code_cell edited (Z.of_nat (length cells)) newCode)
    = insert_code_cell nb newCode None.
Proof.
  intros Hnb Hk.
  assert (∀ xs ys i,
            i = Z.of_nat (length xs) →
            replace_code_cell (with_cells nb (xs ++ newCell code :: ys)) i newCode
            = inr (with_cells nb (xs ++ newCell newCode :: ys))) as Hreplace.
  { intros xs ys i ->.
    erewrite replace_code_cell_code;
      [|by eapply notebook_cells_with_cells|lia| |apply cell_kind_newCell].
    - rewrite Nat2Z.id, alter_middle, with_cells_with_cells.
      by rewrite newCell_set_source.
    - rewrite Nat2Z.id. by apply list_lookup_middle. }
  split.
  - rewrite !(insert_code_cell_ok _ _ _ _ Hnb), !insert_or_append_in_range by done.
    simpl. apply Hreplace. rewrite length_take. lia.
  - rewrite !(insert_code_cell_ok _ _ _ _ Hnb). simpl. unfold push.
    apply (Hreplace cells []). done.
Qed.

Lemma replace_code_cell_again nb cellIndex code1 code2 edited :
  replace_code_cell nb cellIndex code1 = inr edited →
  replace_code_cell edited cellIndex code2 = replace_code_cell nb cellIndex code2
  ∧ ∃ edited2, replace_code_cell nb cellIndex code2 = inr edited2.
Proof.
  intros Hrun. split; [|apply replace_code_cell_inv in Hrun
    as (cells & targetCell & Hnb & Hpos & Hcell & Hkind & _);
    eexists; by apply (replace_code_cell_code nb cells cellIndex targetCell)].
  revert Hrun.
  intros (cells & targetCell & Hnb & Hpos & Hcell & Hkind & ->)%replace_code_cell_inv.
  rewrite (replace_code_cell_code nb cells cellIndex targetCell code2) by done.
  erewrite replace_code_cell_code;
    [|by eapply notebook_cells_with_cells|done| |].
  - rewrite with_cells_with_cells. f_equal. f_equal.
    rewrite list_alter_alter_eq. apply list_alter_ext; [|done].
    intros cell _. simpl. apply set_prop_set_prop.
  - by rewrite list_lookup_alter_eq, Hcell.
  - by rewrite cell_kind_set_source.
Qed.

(** X6: of two replacements of the source of one cell the last one
    counts: after a replacement that succeeds, a second one at the same
    index gives what it gives on the notebook as it was. *)
Theorem replace_twice nb cellIndex code1 code2 edited :
  replace_code_cell nb cellIndex code1 = inr edited →
  replace_code_cell edited cellIndex code2 = replace_code_cell nb cellIndex code2.
Proof. intros Hrun. by apply (replace_code_cell_again _ _ code1). Qed.

End Composition.

Lemma replace_after_insert_witness :
  notebook_cells Demo.notebook = Some Demo.cells
  ∧ (0 ≤ 1 ≤ Z.of_nat (length Demo.cells))%Z
  ∧ (insert_code_cell (H := Demo.platform) Demo.notebook "x=1" (Some 1%Z)
     ≫= λ edited, replace_code_cell (H := Demo.platform) edited 1 "x=2")
    = insert_code_cell (H := Demo.platform) Demo.notebook "x=2" (Some 1%Z).
Proof.
  split; [reflexivity|]. split; [simpl; lia|].
  exact (proj1 (replace_after_insert (H := Demo.platform) Demo.notebook Demo.cells
                  "x=1" "x=2" 1 eq_refl ltac:(simpl; lia))).
Defined.

Lemma replace_twice_witness :
  replace_code_cell (H := Demo.platform) Demo.notebook 0 "a=2"
  = inr (with_cells Demo.notebook
           [Demo.code_cell ["a=2"]; Demo.markdown_cell ["# title"]])
  ∧ replace_code_cell (H := Demo.platform)
      (with_cells Demo.notebook
         [Demo.code_cell ["a=2"]; Demo.markdown_cell ["# title"]]) 0 "a=3"
    = replace_code_cell (H := Demo.platform) Demo.notebook 0 "a=3".
Proof.
  split; [reflexivity|].
  apply (replace_twice (H := Demo.platform) Demo.notebook 0 "a=2" "a=3").
  reflexivity.
Defined.


(** ** What the edits leave alone, and what they refuse *)

Section Others.

Context `{Platform}.

Lemma other_cells_app xs ys : other_cells (xs ++ ys) = other_cells xs ++ other_cells ys.
Proof. apply filter_app. Qed.

Lemma other_cells_code cell cells :
  cell_kind cell = Some "code" → other_cells (cell :: cells) = other_cells cells.
Proof. intros Hkind. unfold other_cells. by rewrite filter_cons_False by naive_solver. Qed.

Lemma other_cells_insert_middle xs ys cell :
  cell_kind cell = Some "code" →
  other_cells (xs ++ cell :: ys) = other_cells (xs ++ ys).
Proof. intros Hkind. by rewrite !other_cells_app, other_cells_code. Qed.

Lemma other_cells_insert_or_append position cell cells :
  cell_kind cell = Some "code" →
  other_cells (insert_or_append position cell cells) = other_cells cells.
Proof.
  intros Hkind. unfold insert_or_append, splice_insert, push.
  destruct position as [p|].
  - case_match.
    + by rewrite other_cells_insert_middle, take_drop.
    + rewrite other_cells_insert_middle by done. by rewrite app_nil_r.
  - rewrite other_cells_insert_middle by done. by rewrite app_nil_r.
Qed.

(** X7: neither edit touches a cell that is not a code cell: after an
    insertion, at any position, and after a replacement, the cells of
    other kinds are the same ones in the same order. *)
Theorem other_cells_kept nb cells :
  notebook_cells nb = Some cells →
  (∀ code position edited,
     insert_code_cell nb code position = inr edited →
     other_cells <$> notebook_cells edited = Some (other_cells cells))
  ∧ (∀ cellIndex newCode edited,
       replace_code_cell nb cellIndex newCode = inr edited →
       other_cells <$> notebook_cells edited = Some (other_cells cells)).
Proof.
  intros Hnb. split.
  - intros code position edited.
    rewrite (insert_code_cell_ok _ _ _ _ Hnb). intros [= <-].
    rewrite (notebook_cells_with_cells _ _ _ Hnb). simpl. f_equal.
    apply other_cells_insert_or_append, cell_kind_newCell.
  - intros cellIndex newCode edited
      (cells0 & targetCell & Hnb0 & Hpos & Hcell & Hkind & ->)%replace_code_cell_inv.
    assert (cells0 = cells) as -> by congruence.
    rewrite (notebook_cells_with_cells _ _ _ Hnb). simpl. f_equal.
    rewrite <- (take_drop_middle _ _ _ Hcell) at 2.
    rewrite <- (take_drop_middle _ _ _ Hcell) at 1.
    assert (Z.to_nat cellIndex = length (take (Z.to_nat cellIndex) cells)) as Hlen.
    { apply lookup_lt_Some in Hcell. rewrite length_take. lia. }
    rewrite Hlen at 1. rewrite alter_middle.
    rewrite !other_cells_insert_middle; [done|done|].
    by rewrite cell_kind_set_source.
Qed.


End Others.

Lemma other_cells_kept_witness :
  notebook_cells Demo.notebook = Some Demo.cells
  ∧ insert_code_cell (H := Demo.platform) Demo.notebook "x=1" (Some 0%Z)
    = inr (with_cells Demo.notebook (newCell "x=1" :: Demo.cells))
  ∧ other_cells
    <$> notebook_cells (with_cells Demo.notebook (newCell "x=1" :: Demo.cells))
    = Some [Demo.markdown_cell ["# title"]].
Proof.
  split; [reflexivity|]. split; [reflexivity|].
  destruct (other_cells_kept (H := Demo.platform) Demo.notebook Demo.cells eq_refl)
    as [Hinsert _].
  apply (Hinsert "x=1" (Some 0%Z)). reflexivity.
Defined.


(** ** The tool cases, every path *)

Section Paths.

Context `{Platform}.

(** The case [add_code_cell], path by path. *)
Lemma add_code_cell_paths args d :
  add_code_cell args d
  = match position args with
    | Some p =>
        if (p <? 0)%Z
        then (inl (add_code_cell_catch args (ZodError [zod_nonnegative_message])), d)
        else
          match files_get_media (add_notebookFileId args) d with
          | inl e => (inl (add_code_cell_catch args (ThrownGaxiosError e)), d)
          | inr notebookContent =>
              match JSON_parse notebookContent with
              | None => (inl (add_code_cell_catch args (ThrownMcpError parse_failed)), d)
              | Some nb =>
                  match insert_code_cell nb (code_text args) (position args) with
                  | inl error => (inl (add_code_cell_catch args error), d)
                  | inr edited =>
                      match files_update (add_notebookFileId args) notebook_mime
                              (JSON_stringify edited) d with
                      | (inl e, d') =>
                          (inl (add_code_cell_catch args (ThrownGaxiosError e)), d')
                      | (inr updatedFile, d') => (inr (added_text updatedFile), d')
                      end
                  end
              end
          end
    | None =>
        match files_get_media (add_notebookFileId args) d with
        | inl e => (inl (add_code_cell_catch args (ThrownGaxiosError e)), d)
        | inr notebookContent =>
            match JSON_parse notebookContent with
            | None => (inl (add_code_cell_catch args (ThrownMcpError parse_failed)), d)
            | Some nb =>
                match insert_code_cell nb (code_text args) (position args) with
                | inl error => (inl (add_code_cell_catch args error), d)
                | inr edited =>
                    match files_update (add_notebookFileId args) notebook_mime
                            (JSON_stringify edited) d with
                    | (inl e, d') =>
                        (inl (add_code_cell_catch args (ThrownGaxiosError e)), d')
                    | (inr updatedFile, d') => (inr (added_text updatedFile), d')
                    end
                end
            end
        end
    end.
Proof.
  unfold add_code_cell, try_catch, mbind, tool_bind, lift, download, upload,
    parse_notebook, AddCodeCellArgsSchema_parse.
  destruct (position args) as [p|] eqn:Hp.
  - destruct (p <? 0)%Z; [done|]. simpl. rewrite Hp.
    destruct (files_get_media _ _) as [e|notebookContent]; [done|].
    destruct (JSON_parse _) as [nb|]; [|done]. simpl.
    destruct (insert_code_cell _ _ _) as [error|edited]; [done|].
    by destruct (files_update _ _ _ _) as [[e|updatedFile] d'].
  - simpl. rewrite Hp.
    destruct (files_get_media _ _) as [e|notebookContent]; [done|].
    destruct (JSON_parse _) as [nb|]; [|done]. simpl.
    destruct (insert_code_cell _ _ _) as [error|edited]; [done|].
    by destruct (files_update _ _ _ _) as [[e|updatedFile] d'].
Qed.

(** The case [edit_code_cell], path by path. *)
Lemma edit_code_cell_paths args d :
  edit_code_cell args d
  = if (cellIndex args <? 0)%Z
    then (inl (edit_code_cell_catch args (ZodError [zod_nonnegative_message])), d)
    else
      match files_get_media (edit_notebookFileId args) d with
      | inl e => (inl (edit_code_cell_catch args (ThrownGaxiosError e)), d)
      | inr notebookContent =>
          match JSON_parse notebookContent with
          | None => (inl (edit_code_cell_catch args (ThrownMcpError parse_failed)), d)
          | Some nb =>
              match replace_code_cell nb (cellIndex args) (newCode args) with
              | inl error => (inl (edit_code_cell_catch args error), d)
              | inr edited =>
                  match files_update (edit_notebookFileId args) notebook_mime
                          (JSON_stringify edited) d with
                  | (inl e, d') =>
                      (inl (edit_code_cell_catch args (ThrownGaxiosError e)), d')
                  | (inr updatedFile, d') =>
                      (inr (edited_text (cellIndex args) updatedFile), d')
                  end
              end
          end
      end.
Proof.
  unfold edit_code_cell, try_catch, mbind, tool_bind, lift, download, upload,
    parse_notebook, EditCodeCellArgsSchema_parse.
  destruct (cellIndex args <? 0)%Z; [done|]. simpl.
  destruct (files_get_media _ _) as [e|notebookContent]; [done|].
  destruct (JSON_parse _) as [nb|]; [|done]. simpl.
  destruct (replace_code_cell _ _ _) as [error|edited]; [done|].
  by destruct (files_update _ _ _ _) as [[e|updatedFile] d'].
Qed.

(** The edits in memory throw an [McpError] or, on a [null] cell, a
    [TypeError]; never what the validation or Drive throw. *)
Lemma insert_code_cell_error nb code position error :
  insert_code_cell nb code position = inl error →
  error = ThrownMcpError cells_not_found.
Proof.
  unfold insert_code_cell. rewrite check_structure_cells.
  destruct (notebook_cells nb); [done|]. by intros [= <-].
Qed.



End Paths.

Section Failures.

Context `{Platform}.

(** X9: a negative position does not pass the schema of [add_code_cell]:
    the case fails with [InvalidParams] and the message of the schema,
    whatever Drive holds, and Drive is left as it was. *)
Theorem add_code_cell_negative_position d fileId code (p : Z) :
  (p < 0)%Z →
  add_code_cell (mkAddCodeCellArgs fileId code (Some p)) d
  = (inl (mkMcpError InvalidParams
            ("Failed to add code cell: Invalid arguments for add_code_cell: "
             +:+ zod_nonnegative_message)), d).
Proof.
  intros Hp. rewrite add_code_cell_paths. simpl.
  by rewrite (proj2 (Z.ltb_lt p 0)).
Qed.

(** X10: when the download fails, both cases fail and Drive is left as
    it was; the message is the one of the response of Drive when there is
    one that is not empty, and the one of the error otherwise; a code or a
    status of 404 makes it [InvalidRequest] and names the file, anything
    else [InternalError]. *)
Theorem download_failure d fileId (e : GaxiosError) :
  files_get_media fileId d = inl e →
  let message :=
    match response_error_message e with
    | Some "" | None => gaxios_message e
    | Some m => m
    end in
  let not_found :=
    bool_decide (gaxios_code e = Some 404%Z)
    || bool_decide (response_status e = Some 404%Z) in
  (∀ code position,
     (∀ p, position = Some p → (0 ≤ p)%Z) →
     add_code_cell (mkAddCodeCellArgs fileId code position) d
     = (inl (if not_found
             then mkMcpError InvalidRequest
                    ("Failed to add code cell: Notebook file not found (ID: "
                     +:+ fileId +:+ "). " +:+ message)
             else mkMcpError InternalError ("Failed to add code cell: " +:+ message)),
        d))
  ∧ (∀ cellIndex newCode,
       (0 ≤ cellIndex)%Z →
       edit_code_cell (mkEditCodeCellArgs fileId cellIndex newCode) d
       = (inl (if not_found
               then mkMcpError InvalidRequest
                      ("Failed to edit code cell: Notebook file not found (ID: "
                       +:+ fileId +:+ "). " +:+ message)
               else mkMcpError InternalError ("Failed to edit code cell: " +:+ message)),
          d)).
Proof.
  intros Hget message not_found. split.
  - intros code pos Hpos. rewrite add_code_cell_paths.
    cbn [position add_notebookFileId]. rewrite Hget.
    destruct pos as [p|]; [|done].
    by rewrite (proj2 (Z.ltb_ge p 0)) by by apply Hpos.
  - intros cellIndex newCode Hpos. rewrite edit_code_cell_paths. simpl.
    by rewrite (proj2 (Z.ltb_ge cellIndex 0)), Hget.
Qed.


End Failures.

Lemma add_code_cell_negative_position_witness :
  (-3 < 0)%Z
  ∧ add_code_cell (H := Demo.platform) (mkAddCodeCellArgs "nb" "x=1" (Some (-3)%Z))
      Demo.drive0
    = (inl (mkMcpError InvalidParams
              "Failed to add code cell: Invalid arguments for add_code_cell: Number must be greater than or equal to 0"),
       Demo.drive0).
Proof.
  split; [lia|].
  apply (add_code_cell_negative_position (H := Demo.platform)). lia.
Defined.

Lemma download_failure_witness :
  files_get_media (Platform := Demo.platform) "missing" Demo.drive0
  = inl Demo.not_found
  ∧ edit_code_cell (H := Demo.platform) (mkEditCodeCellArgs "missing" 0 "x=1")
      Demo.drive0
    = (inl (mkMcpError InvalidRequest
              "Failed to edit code cell: Notebook file not found (ID: missing). File not found."),
       Demo.drive0).
Proof.
  split; [reflexivity|].
  destruct (download_failure (H := Demo.platform) Demo.drive0 "missing"
              Demo.not_found eq_refl) as [_ Hedit].
  apply (Hedit 0%Z "x=1"). lia.
Defined.


Section Writes.

Context `{Platform}.

(** X12: whatever the arguments and whatever Drive answers, a case
    leaves Drive as it was or makes the one update of the file it was
    given, with the notebook type and with the edit of the notebook that
    it downloaded and parsed as the body. *)
Theorem only_the_edit_is_written d :
  (∀ args r d',
     add_code_cell args d = (r, d') →
     d' = d
     ∨ ∃ notebookContent nb edited,
         files_get_media (add_notebookFileId args) d = inr notebookContent
         ∧ JSON_parse notebookContent = Some nb
         ∧ insert_code_cell nb (code_text args) (position args) = inr edited
         ∧ d' = snd (files_update (add_notebookFileId args) notebook_mime
                       (JSON_stringify edited) d))
  ∧ (∀ args r d',
       edit_code_cell args d = (r, d') →
       d' = d
       ∨ ∃ notebookContent nb edited,
           files_get_media (edit_notebookFileId args) d = inr notebookContent
           ∧ JSON_parse notebookContent = Some nb
           ∧ replace_code_cell nb (cellIndex args) (newCode args) = inr edited
           ∧ d' = snd (files_update (edit_notebookFileId args) notebook_mime
                         (JSON_stringify edited) d)).
Proof.
  split; intros args r d'.
  - rewrite add_code_cell_paths.
    assert (match files_get_media (add_notebookFileId args) d with
            | inl e => (inl (add_code_cell_catch args (ThrownGaxiosError e)), d)
            | inr notebookContent =>
                match JSON_parse notebookContent with
                | None => (inl (add_code_cell_catch args (ThrownMcpError parse_failed)), d)
                | Some nb =>
                    match insert_code_cell nb (code_text args) (position args) with
                    | inl error => (inl (add_code_cell_catch args error), d)
                    | inr edited =>
                        match files_update (add_notebookFileId args) notebook_mime
                                (JSON_stringify edited) d with
                        | (inl e, d') =>
                            (inl (add_code_cell_catch args (ThrownGaxiosError e)), d')
                        | (inr updatedFile, d') => (inr (added_text updatedFile), d')
                        end
                    end
                end
            end = (r, d') →
            d' = d
            ∨ ∃ notebookContent nb edited,
                files_get_media (add_notebookFileId args) d = inr notebookContent
                ∧ JSON_parse notebookContent = Some nb
                ∧ insert_code_cell nb (code_text args) (position args) = inr edited
                ∧ d' = snd (files_update (add_notebookFileId args) notebook_mime
                              (JSON_stringify edited) d)) as Hfetch.
    { destruct (files_get_media _ _) as [e|notebookContent]; [intros [= _ <-]; by left|].
      destruct (JSON_parse _) as [nb|] eqn:Hparse; [|intros [= _ <-]; by left].
      destruct (insert_code_cell _ _ _) as [error|edited] eqn:Hrun;
        [intros [= _ <-]; by left|].
      intros Hupdate. right. exists notebookContent, nb, edited.
      split_and!; [done..|].
      by destruct (files_update _ _ _ _) as [[e|updatedFile] d'']; injection Hupdate as _ <-. }
    destruct (position args) as [p|]; [|done].
    destruct (p <? 0)%Z; [intros [= _ <-]; by left|done].
  - rewrite edit_code_cell_paths.
    destruct (cellIndex args <? 0)%Z; [intros [= _ <-]; by left|].
    destruct (files_get_media _ _) as [e|notebookContent]; [intros [= _ <-]; by left|].
    destruct (JSON_parse _) as [nb|] eqn:Hparse; [|intros [= _ <-]; by left].
    destruct (replace_code_cell _ _ _) as [error|edited] eqn:Hrun;
      [intros [= _ <-]; by left|].
    intros Hupdate. right. exists notebookContent, nb, edited.
    split_and!; [done..|].
    by destruct (files_update _ _ _ _) as [[e|updatedFile] d'']; injection Hupdate as _ <-.
Qed.



End Writes.

Lemma only_the_edit_is_written_witness :
  let edited := with_cells Demo.notebook
                  [Demo.code_cell ["a=2"]; Demo.markdown_cell ["# title"]] in
  replace_code_cell (H := Demo.platform) Demo.notebook 0 "a=2" = inr edited
  ∧ (snd (edit_code_cell (H := Demo.platform) (mkEditCodeCellArgs "nb" 0 "a=2")
            Demo.drive0)
     = Demo.drive0
     ∨ ∃ notebookContent nb edited,
         files_get_media (Platform := Demo.platform) "nb" Demo.drive0
         = inr notebookContent
         ∧ JSON_parse (Platform := Demo.platform) notebookContent = Some nb
         ∧ replace_code_cell (H := Demo.platform) nb 0 "a=2" = inr edited
         ∧ snd (edit_code_cell (H := Demo.platform) (mkEditCodeCellArgs "nb" 0 "a=2")
                  Demo.drive0)
           = snd (files_update (Platform := Demo.platform) "nb" notebook_mime
                    (JSON_stringify (Platform := Demo.platform) edited) Demo.drive0)).
Proof.
  intros edited. split; [reflexivity|].
  destruct (only_the_edit_is_written (H := Demo.platform) Demo.drive0) as [_ Hedit].
  apply (Hedit (mkEditCodeCellArgs "nb" 0 "a=2")
           (fst (edit_code_cell (H := Demo.platform)
                   (mkEditCodeCellArgs "nb" 0 "a=2") Demo.drive0))).
  apply surjective_pairing.
Defined.

(** ** The other tools *)

Section OtherToolsFacts.

Context `{Folders}.

Lemma read_file_paths args d :
  read_file args d
  = match files_get_media (read_fileId args) d with
    | inl e => (inl (read_file_catch args (ThrownGaxiosError e)), d)
    | inr fileContent => (inr fileContent, d)
    end.
Proof.
  unfold read_file, try_catch, mbind, tool_bind, download.
  by destruct (files_get_media _ _).
Qed.

Lemma write_file_paths args d :
  write_file args d
  = match files_create (write_file_request args) d with
    | (inl e, d') => (inl (write_file_catch (ThrownGaxiosError e)), d')
    | (inr createdFile, d') =>
        (inr (created_text createdFile (default "root" (parentFolderId args))), d')
    end.
Proof.
  unfold write_file, try_catch, mbind, tool_bind, create_file.
  by destruct (files_create _ _) as [[e|createdFile] d'].
Qed.

Lemma list_files_paths args d :
  list_files args d
  = match ListFilesArgsSchema_parse args with
    | inl error => (inl (list_files_catch error), d)
    | inr validatedArgs =>
        let folderId := folder_or_root validatedArgs.1.1 in
        match files_list
                (list_files_request folderId validatedArgs.1.2 validatedArgs.2) d with
        | inl e => (inl (list_files_catch (ThrownGaxiosError e)), d)
        | inr data => (inr (list_files_text folderId data), d)
        end
    end.
Proof.
  unfold list_files, try_catch, mbind, tool_bind, lift, list_folder.
  destruct (ListFilesArgsSchema_parse args) as [error|validatedArgs]; [done|].
  simpl. by destruct (files_list _ _).
Qed.

(** X15: when Drive gives back what was last uploaded to a file, a read
    of the notebook after an edit that succeeded returns the edited
    notebook as it was stringified, for both edits. *)
Theorem read_after_edit d :
  (∀ fileId mimeType body d0 updatedFile d1,
     files_update fileId mimeType body d0 = (inr updatedFile, d1) →
     files_get_media fileId d1 = inr body) →
  (∀ args text d',
     edit_code_cell args d = (inr text, d') →
     ∃ notebookContent nb edited,
       files_get_media (edit_notebookFileId args) d = inr notebookContent
       ∧ JSON_parse notebookContent = Some nb
       ∧ replace_code_cell nb (cellIndex args) (newCode args) = inr edited
       ∧ read_file (mkReadFileArgs (edit_notebookFileId args)) d'
         = (inr (JSON_stringify edited), d'))
  ∧ (∀ args text d',
       add_code_cell args d = (inr text, d') →
       ∃ notebookContent nb edited,
         files_get_media (add_notebookFileId args) d = inr notebookContent
         ∧ JSON_parse notebookContent = Some nb
         ∧ insert_code_cell nb (code_text args) (position args) = inr edited
         ∧ read_file (mkReadFileArgs (add_notebookFileId args)) d'
           = (inr (JSON_stringify edited), d')).
Proof.
  intros Hlaw. split; intros args text d'.
  - rewrite edit_code_cell_paths.
    destruct (cellIndex args <? 0)%Z; [done|].
    destruct (files_get_media _ _) as [e|notebookContent]; [done|].
    destruct (JSON_parse _) as [nb|] eqn:Hparse; [|done].
    destruct (replace_code_cell _ _ _) as [error|edited] eqn:Hrun; [done|].
    destruct (files_update _ _ _ _) as [[e|updatedFile] d''] eqn:Hupdate; [done|].
    intros [= _ <-]. exists notebookContent, nb, edited. split_and!; try done.
    rewrite read_file_paths. simpl. by rewrite (Hlaw _ _ _ _ _ _ Hupdate).
  - rewrite add_code_cell_paths.
    assert (∀ notebookContent,
              match JSON_parse notebookContent with
              | None => (inl (add_code_cell_catch args (ThrownMcpError parse_failed)), d)
              | Some nb =>
                  match insert_code_cell nb (code_text args) (position args) with
                  | inl error => (inl (add_code_cell_catch args error), d)
                  | inr edited =>
                      match files_update (add_notebookFileId args) notebook_mime
                              (JSON_stringify edited) d with
                      | (inl e, d') =>
                          (inl (add_code_cell_catch args (ThrownGaxiosError e)), d')
                      | (inr updatedFile, d') => (inr (added_text updatedFile), d')
                      end
                  end
              end = (inr text, d') →
              ∃ nb edited,
                JSON_parse notebookContent = Some nb
                ∧ insert_code_cell nb (code_text args) (position args) = inr edited
                ∧ read_file (mkReadFileArgs (add_notebookFileId args)) d'
                  = (inr (JSON_stringify edited), d')) as Hrest.
    { intros notebookContent.
      destruct (JSON_parse _) as [nb|] eqn:Hparse; [|done].
      destruct (insert_code_cell _ _ _) as [error|edited] eqn:Hrun; [done|].
      destruct (files_update _ _ _ _) as [[e|updatedFile] d''] eqn:Hupdate; [done|].
      intros [= _ <-]. exists nb, edited. split_and!; try done.
      rewrite read_file_paths. simpl. by rewrite (Hlaw _ _ _ _ _ _ Hupdate). }
    destruct (position args) as [p|].
    + destruct (p <? 0)%Z; [done|].
      destruct (files_get_media _ _) as [e|notebookContent]; [done|].
      intros (nb & edited & ? & ? & ?)%Hrest. by exists notebookContent, nb, edited.
    + destruct (files_get_media _ _) as [e|notebookContent]; [done|].
      intros (nb & edited & ? & ? & ?)%Hrest. by exists notebookContent, nb, edited.
Qed.

(** X16: when Drive gives back the body a file was created with, a read
    of the file that [write_file] created returns the content that was
    written. *)
Theorem read_after_write args d text d' :
  (∀ params d0 createdFile d1 fileId,
     files_create params d0 = (inr createdFile, d1) →
     created_id createdFile = Text fileId →
     files_get_media fileId d1 = inr (create_body params)) →
  write_file args d = (inr text, d') →
  ∃ createdFile,
    files_create (write_file_request args) d = (inr createdFile, d')
    ∧ text = created_text createdFile (default "root" (parentFolderId args))
    ∧ ∀ fileId,
        created_id createdFile = Text fileId →
        read_file (mkReadFileArgs fileId) d' = (inr (content args), d').
Proof.
  intros Hlaw. rewrite write_file_paths.
  destruct (files_create _ _) as [[e|createdFile] d''] eqn:Hcreate; [done|].
  intros [= <- <-]. exists createdFile. split_and!; [done..|].
  intros fileId Hid. rewrite read_file_paths. simpl.
  by rewrite (Hlaw _ _ _ _ _ Hcreate Hid).
Qed.

End OtherToolsFacts.

Section Listing.

Context `{Folders}.

Lemma ListFilesArgsSchema_parse_ok folder size token :
  (0 < default 100 size)%Z →
  ListFilesArgsSchema_parse (mkListFilesArgs folder size token)
  = inr (folder, default 100%Z size, token).
Proof.
  intros Hsize. unfold ListFilesArgsSchema_parse. simpl.
  destruct size as [n|]; [|done].
  simpl in Hsize. by rewrite (proj2 (Z.ltb_lt 0 n)).
Qed.

(** X17: [list_files] without a folder, or with the empty string as the
    folder, lists the folder [root], and without a page size asks for 100
    files: the case behaves as with these values given. *)
Theorem list_files_defaults d folder size token :
  list_files (mkListFilesArgs None size token) d
  = list_files (mkListFilesArgs (Some "root") size token) d
  ∧ list_files (mkListFilesArgs (Some "") size token) d
    = list_files (mkListFilesArgs (Some "root") size token) d
  ∧ list_files (mkListFilesArgs folder None token) d
    = list_files (mkListFilesArgs folder (Some 100%Z) token) d.
Proof.
  rewrite !list_files_paths. unfold ListFilesArgsSchema_parse. simpl.
  split_and!; [by destruct size as [n|]; [destruct (0 <? n)%Z|]..|done].
Qed.

(** X18: a page size of zero or less stops [list_files] before Drive is
    asked, with [InvalidParams] and a message that does not start with
    the words of a failed listing; any failure of Drive, a 404 too, gives
    [InternalError]; in both cases Drive is left as it was. *)
Theorem list_files_failures d folder token :
  (∀ size,
     (size ≤ 0)%Z →
     list_files (mkListFilesArgs folder (Some size) token) d
     = (inl (mkMcpError InvalidParams
               ("Invalid arguments for list_files: " +:+ zod_positive_message)), d))
  ∧ (∀ size e,
       (0 < default 100 size)%Z →
       files_list (list_files_request (folder_or_root folder) (default 100%Z size) token) d
       = inl e →
       list_files (mkListFilesArgs folder size token) d
       = (inl (mkMcpError InternalError
                 ("Failed to list files: "
                  +:+ match response_error_message e with
                      | Some "" | None => gaxios_message e
                      | Some m => m
                      end)), d)).
Proof.
  split.
  - intros size Hsize. rewrite list_files_paths.
    unfold ListFilesArgsSchema_parse. simpl.
    by rewrite (proj2 (Z.ltb_ge 0 size)).
  - intros size e Hsize Hlist. rewrite list_files_paths.
    rewrite (ListFilesArgsSchema_parse_ok _ _ _ Hsize).
    cbv zeta. cbn [fst snd]. by rewrite Hlist.
Qed.

Lemma foldl_file_lines text fs :
  foldl (λ text file, text +:+ file_line file) text fs
  = text +:+ Str.join (file_line <$> fs).
Proof.
  revert text. induction fs as [|file fs IH]; intros text; simpl.
  - unfold Str.join. simpl. by rewrite StrFacts.app_nil_r.
  - rewrite IH. unfold Str.join. simpl. by rewrite StrFacts.app_assoc.
Qed.

(** X19: the text of a listing is the line of the folder, then one line
    for each file in the order of Drive, or the line that says there is
    none when Drive returns no file or no list, then the hint of the next
    page when Drive names one that is not empty. *)
Theorem list_files_listing d folder size token data :
  (0 < default 100 size)%Z →
  files_list (list_files_request (folder_or_root folder) (default 100%Z size) token) d
  = inr data →
  list_files (mkListFilesArgs folder size token) d
  = (inr ("Files/Folders in '" +:+ folder_or_root folder +:+ "':" +:+ Str.newline
          +:+ match files data with
              | None | Some [] => "- (No files or folders found)" +:+ Str.newline
              | Some fs => Str.join (file_line <$> fs)
              end
          +:+ match nextPageToken data with
              | Text "" | Absent | Null => ""
              | Text next =>
                  Str.newline +:+ "(More files available. Use pageToken: "
                  +:+ next +:+ " to fetch next page)"
              end), d).
Proof.
  intros Hsize Hlist. rewrite list_files_paths.
  rewrite (ListFilesArgsSchema_parse_ok _ _ _ Hsize).
  cbv zeta. cbn [fst snd]. rewrite Hlist. f_equal. f_equal. unfold list_files_text.
  set (header := "Files/Folders in '" +:+ folder_or_root folder +:+ "':" +:+ Str.newline).
  assert ((if bool_decide (length (default [] (files data)) = 0%nat)
           then header +:+ "- (No files or folders found)" +:+ Str.newline
           else foldl (λ text file, text +:+ file_line file) header
                  (default [] (files data)))
          = header +:+ match files data with
                       | None | Some [] => "- (No files or folders found)" +:+ Str.newline
                       | Some fs => Str.join (file_line <$> fs)
                       end) as ->.
  { destruct (files data) as [[|file fs]|]; simpl; [done| |done].
    by rewrite (foldl_file_lines _ fs), !StrFacts.app_assoc. }
  subst header.
  destruct (nextPageToken data) as [| |[|c next]];
    by rewrite ?StrFacts.app_nil_r, ?StrFacts.app_assoc.
Qed.

End Listing.

(** X20: the tools that the server announces are the ones for which
    [handleCallTool] has a case: a name is announced exactly when it does
    not fall to the default case, and no name is announced twice. *)
Theorem listed_tools_are_the_cases (toolName : string) :
  (toolName ∈ listed_tools ↔ select_case toolName ≠ case_default)
  ∧ NoDup listed_tools.
Proof.
  split; [split|].
  - unfold listed_tools. rewrite !elem_of_cons, elem_of_nil.
    intros [->|[->|[->|[->|[->|[]]]]]]; by vm_compute.
  - intros Hcase. unfold select_case in Hcase. unfold listed_tools.
    rewrite !elem_of_cons.
    destruct (decide (toolName = "list_files")); [by auto|].
    destruct (decide (toolName = "read_file")); [by auto|].
    destruct (decide (toolName = "write_file")); [by auto|].
    destruct (decide (toolName = "add_code_cell")); [by auto 10|].
    destruct (decide (toolName = "edit_code_cell")); [by auto 10|].
    done.
  - unfold listed_tools.
    repeat (apply NoDup_cons; split;
            [intros Hin;
             repeat (apply elem_of_cons in Hin as [Hin|Hin]; [discriminate Hin|]);
             by apply elem_of_nil in Hin|]).
    apply NoDup_nil_2.
Qed.

(** ** The small Drive gives back what it was given *)

Module MoreFacts.

Lemma get_after_update fileId mimeType body (d0 : Demo.store) updatedFile d1 :
  Demo.update fileId mimeType body d0 = (inr updatedFile, d1) →
  Demo.get_media fileId d1 = inr body.
Proof.
  unfold Demo.update, Demo.get_media, Demo.store in *.
  destruct (d0 !! fileId) as [[name old]|]; [|done].
  intros [= _ <-]. by rewrite lookup_insert_eq.
Qed.

Lemma get_after_create params (d0 : Demo.store) createdFile d1 fileId :
  MoreFolders.create params d0 = (inr createdFile, d1) →
  created_id createdFile = Text fileId →
  Demo.get_media fileId d1 = inr (create_body params).
Proof.
  unfold MoreFolders.create, Demo.get_media, Demo.store in *.
  intros [= <- <-] [= <-]. by rewrite lookup_insert_eq.
Qed.

End MoreFacts.

Lemma read_after_edit_witness :
  let args := mkEditCodeCellArgs "nb" 0 "a=2" in
  let d' := snd (edit_code_cell (H := More.platform) args More.drive0) in
  edit_code_cell (H := More.platform) args More.drive0
  = (inr "Successfully edited cell 0 in notebook 'demo.ipynb' (ID: nb).", d')
  ∧ ∃ notebookContent nb edited,
      files_get_media (Platform := More.platform) "nb" More.drive0
      = inr notebookContent
      ∧ JSON_parse (Platform := More.platform) notebookContent = Some nb
      ∧ replace_code_cell (H := More.platform) nb 0 "a=2" = inr edited
      ∧ read_file (H := More.platform) (mkReadFileArgs "nb") d'
        = (inr (JSON_stringify (Platform := More.platform) edited), d').
Proof.
  intros args d'.
  assert (edit_code_cell (H := More.platform) args More.drive0
          = (inr "Successfully edited cell 0 in notebook 'demo.ipynb' (ID: nb).", d'))
    as Hrun by (vm_compute; reflexivity).
  split; [exact Hrun|].
  destruct (read_after_edit (H := More.platform) More.drive0
              MoreFacts.get_after_update) as [Hedit _].
  exact (Hedit args _ d' Hrun).
Defined.

Lemma read_after_write_witness :
  let args := mkWriteFileArgs "notes.txt" "hello" None None in
  let d' := snd (write_file (H0 := MoreFolders.folders) args More.drive0) in
  write_file (H0 := MoreFolders.folders) args More.drive0
  = (inr "Successfully created file 'notes.txt' (ID: id-notes.txt) in folder 'root'.", d')
  ∧ read_file (H := More.platform) (mkReadFileArgs "id-notes.txt") d'
    = (inr "hello", d').
Proof.
  intros args d'.
  assert (write_file (H0 := MoreFolders.folders) args More.drive0
          = (inr "Successfully created file 'notes.txt' (ID: id-notes.txt) in folder 'root'.",
             d')) as Hrun by (vm_compute; reflexivity).
  split; [exact Hrun|].
  destruct (read_after_write (H0 := MoreFolders.folders) args More.drive0 _ d'
              MoreFacts.get_after_create Hrun) as (createdFile & Hcreate & _ & Hread).
  apply Hread.
  cbv [files_create MoreFolders.folders MoreFolders.create] in Hcreate.
  revert Hcreate. intros [= <-]. reflexivity.
Defined.

Lemma list_files_failures_witness :
  (0 ≤ 0)%Z
  ∧ list_files (H0 := MoreFolders.folders) (mkListFilesArgs None (Some 0%Z) None)
      More.drive0
    = (inl (mkMcpError InvalidParams
              "Invalid arguments for list_files: Number must be greater than 0"),
       More.drive0).
Proof.
  split; [lia|].
  destruct (list_files_failures (H0 := MoreFolders.folders) More.drive0 None None)
    as [Hsize _].
  apply (Hsize 0%Z). lia.
Defined.

Lemma list_files_listing_witness :
  let d : Demo.store := {[ "f1" := ("work", "") ]} in
  let data := mkFileList (Some [mkListedFile (Text "f1") (Text "work") (Text "text/plain")])
                Absent in
  (0 < default 100 None)%Z
  ∧ files_list (Folders := MoreFolders.folders)
      (list_files_request (folder_or_root None) (default 100%Z None) None) d
    = inr data
  ∧ list_files (H0 := MoreFolders.folders) (mkListFilesArgs None None None) d
    = (inr ("Files/Folders in 'root':" +:+ Str.newline
            +:+ "- [File] work (ID: f1)" +:+ Str.newline), d).
Proof.
  intros d data. split; [simpl; lia|]. split; [reflexivity|].
  etrans.
  - apply (list_files_listing (H0 := MoreFolders.folders) d None None None data);
      [simpl; lia|reflexivity].
  - reflexivity.
Defined.

(** ** The Maps server *)

Section MapsFacts.

Context `{Platform} `{MapsClient}.

Lemma is_object_inv args :
  is_object args = true → (∃ props, args = Some (JObj props)) ∨ (∃ items, args = Some (JArr items)).
Proof. destruct args as [[| | | | items|props]|]; try done; eauto. Qed.

Lemma is_string_array_iff v :
  is_string_array v = true ↔ ∃ ss, v = Some (JArr (JStr <$> ss)).
Proof.
  split.
  - destruct v as [[| | | | items|]|]; try done. simpl.
    induction items as [|item items IH]; simpl.
    + intros _. by exists [].
    + intros [Hitem Hitems]%andb_true_iff.
      destruct (IH Hitems) as [ss [= ->]].
      destruct item; try done. by eexists (_ :: ss).
  - intros [ss ->]. simpl. induction ss; simpl; [done|]. done.
Qed.

Lemma is_optional_string_iff v :
  is_optional_string v = true ↔ ∃ mode : option string, v = JStr <$> mode.
Proof.
  split.
  - destruct v as [[| | |s| |]|]; try done; intros _.
    + by exists (Some s).
    + by exists None.
  - by intros [[s|] ->].
Qed.

Lemma is_string_iff v : is_type type_string v = true ↔ ∃ s, v = Some (JStr s).
Proof.
  split.
  - destruct v as [[| | |s| |]|]; try done. eauto.
  - by intros [s ->].
Qed.

Lemma is_number_iff v : is_type type_number v = true ↔ ∃ x, v = Some (JNum x).
Proof.
  split.
  - destruct v as [[| |x| | |]|]; try done. eauto.
  - by intros [x ->].
Qed.

(** X22: what the four guards let through: an object, not an array and
    not [null], with the named properties of the named types; any other
    property may be there, the mode may be absent or any string (it is
    not compared with the modes of transport), and a [null] mode is
    refused. *)
Theorem maps_guards (args : option json) :
  (isGeocodeArgs args = true
   ↔ ∃ props address,
       args = Some (JObj props)
       ∧ Obj.get "address" props = Some (JStr address))
  ∧ (isReverseGeocodeArgs args = true
     ↔ ∃ props lat lng,
         args = Some (JObj props)
         ∧ Obj.get "lat" props = Some (JNum lat)
         ∧ Obj.get "lng" props = Some (JNum lng))
  ∧ (isDirectionsArgs args = true
     ↔ ∃ props origin destination (mode : option string),
         args = Some (JObj props)
         ∧ Obj.get "origin" props = Some (JStr origin)
         ∧ Obj.get "destination" props = Some (JStr destination)
         ∧ Obj.get "mode" props = JStr <$> mode)
  ∧ (isDistanceMatrixArgs args = true
     ↔ ∃ props origins destinations (mode : option string),
         args = Some (JObj props)
         ∧ Obj.get "origins" props = Some (JArr (JStr <$> origins))
         ∧ Obj.get "destinations" props = Some (JArr (JStr <$> destinations))
         ∧ Obj.get "mode" props = JStr <$> mode).
Proof.
  unfold isGeocodeArgs, isReverseGeocodeArgs, isDirectionsArgs, isDistanceMatrixArgs.
  rewrite !andb_true_iff, !is_string_iff, !is_number_iff, !is_string_array_iff,
    !is_optional_string_iff.
  split_and!; split.
  - intros [[[props ->]|[items ->]]%is_object_inv [address Haddress]];
      simpl in *; [|done].
    by exists props, address.
  - intros (props & address & -> & Haddress). simpl. eauto.
  - intros [[[[props ->]|[items ->]]%is_object_inv [lat Hlat]] [lng Hlng]];
      simpl in *; [|done].
    by exists props, lat, lng.
  - intros (props & lat & lng & -> & Hlat & Hlng). simpl. eauto.
  - intros [[[[[props ->]|[items ->]]%is_object_inv [origin Ho]]
               [destination Hd]] [mode Hm]]; simpl in *; [|done].
    by exists props, origin, destination, mode.
  - intros (props & origin & destination & mode & -> & Ho & Hd & Hm). simpl.
    eauto 10.
  - intros [[[[[props ->]|[items ->]]%is_object_inv [origins Ho]]
               [destinations Hd]] [mode Hm]]; simpl in *; [|done].
    by exists props, origins, destinations, mode.
  - intros (props & origins & destinations & mode & -> & Ho & Hd & Hm). simpl.
    eauto 10.
Qed.

Lemma strings_arg_fmap props key (ss : list string) :
  Obj.get key props = Some (JArr (JStr <$> ss)) →
  strings_arg (Some (JObj props)) key = ss.
Proof.
  intros Hget. unfold strings_arg. simpl. rewrite Hget.
  rewrite <- list_fmap_compose. by rewrite list_fmap_id.
Qed.

Lemma template_errorMessage_thrown e :
  template (errorMessage (MapsMcpError e)) = thrown_text e.
Proof.
  unfold errorMessage, thrown_text. simpl.
  by destruct (McpError_message (code e) (message e)).
Qed.

Lemma maps_call_tool_thrown toolName args e :
  maps_switch toolName args = inl (MapsMcpError e) →
  maps_call_tool toolName args
  = mkMapsResult ("Google Maps API Error: " +:+ thrown_text e) true.
Proof.
  intros Hswitch. unfold maps_call_tool.
  by rewrite Hswitch, template_errorMessage_thrown.
Qed.

(** X23: a call that the Maps handler refuses is answered, not thrown:
    for a name that is none of the four tools, and for arguments that the
    guard of the tool does not let through, the result is an error result
    with the message of the [McpError] behind the words of an API error,
    and the client is not asked. *)
Theorem maps_rejections (toolName : string) (args : option json) :
  (toolName ∉ maps_tools →
     maps_call_tool toolName args
     = mkMapsResult
         ("Google Maps API Error: "
          +:+ thrown_text (mkMcpError MethodNotFound ("Unknown tool: " +:+ toolName)))
         true)
  ∧ (isGeocodeArgs args = false →
       maps_call_tool "geocode" args
       = mkMapsResult
           ("Google Maps API Error: "
            +:+ thrown_text (mkMcpError InvalidParams "Invalid arguments for geocode"))
           true)
  ∧ (isReverseGeocodeArgs args = false →
       maps_call_tool "reverse_geocode" args
       = mkMapsResult
           ("Google Maps API Error: "
            +:+ thrown_text
                  (mkMcpError InvalidParams "Invalid arguments for reverse_geocode"))
           true)
  ∧ (isDirectionsArgs args = false →
       maps_call_tool "get_directions" args
       = mkMapsResult
           ("Google Maps API Error: "
            +:+ thrown_text
                  (mkMcpError InvalidParams "Invalid arguments for get_directions"))
           true)
  ∧ (isDistanceMatrixArgs args = false →
       maps_call_tool "get_distance_matrix" args
       = mkMapsResult
           ("Google Maps API Error: "
            +:+ thrown_text
                  (mkMcpError InvalidParams "Invalid arguments for get_distance_matrix"))
           true).
Proof.
  split_and!.
  - unfold maps_tools. rewrite !not_elem_of_cons. intros (? & ? & ? & ? & _).
    apply maps_call_tool_thrown.
    unfold maps_switch. by rewrite !decide_False.
  - intros Hguard. apply maps_call_tool_thrown.
    unfold maps_switch. simpl. by rewrite Hguard.
  - intros Hguard. apply maps_call_tool_thrown.
    unfold maps_switch. simpl. by rewrite Hguard.
  - intros Hguard. apply maps_call_tool_thrown.
    unfold maps_switch. simpl. by rewrite Hguard.
  - intros Hguard. apply maps_call_tool_thrown.
    unfold maps_switch. simpl. by rewrite Hguard.
Qed.

Lemma maps_call_tool_render response toolName args :
  maps_switch toolName args = call response →
  maps_call_tool toolName args = maps_render response.
Proof.
  intros Hswitch. unfold maps_call_tool. rewrite Hswitch. by destruct response.
Qed.

(** X24: arguments that pass the guard of a tool go to the client as
    they are, with the key, and the result is made of the answer of the
    client: the stringified data, or an error result.  The mode goes to
    the client as any string it is, or absent. *)
Theorem maps_calls props :
  (∀ address,
     Obj.get "address" props = Some (JStr address) →
     maps_call_tool "geocode" (Some (JObj props))
     = maps_render (geocode address API_KEY))
  ∧ (∀ lat lng,
       Obj.get "lat" props = Some (JNum lat) →
       Obj.get "lng" props = Some (JNum lng) →
       maps_call_tool "reverse_geocode" (Some (JObj props))
       = maps_render (reverseGeocode lat lng API_KEY))
  ∧ (∀ origin destination (mode : option string),
       Obj.get "origin" props = Some (JStr origin) →
       Obj.get "destination" props = Some (JStr destination) →
       Obj.get "mode" props = JStr <$> mode →
       maps_call_tool "get_directions" (Some (JObj props))
       = maps_render (directions origin destination mode API_KEY))
  ∧ (∀ origins destinations (mode : option string),
       Obj.get "origins" props = Some (JArr (JStr <$> origins)) →
       Obj.get "destinations" props = Some (JArr (JStr <$> destinations)) →
       Obj.get "mode" props = JStr <$> mode →
       maps_call_tool "get_distance_matrix" (Some (JObj props))
       = maps_render (distancematrix origins destinations mode API_KEY)).
Proof.
  split_and!.
  - intros address Haddress. apply maps_call_tool_render.
    unfold maps_switch, isGeocodeArgs, string_arg. simpl. by rewrite Haddress.
  - intros lat lng Hlat Hlng. apply maps_call_tool_render.
    unfold maps_switch, isReverseGeocodeArgs, number_arg. simpl.
    by rewrite Hlat, Hlng.
  - intros origin destination mode Ho Hd Hm. apply maps_call_tool_render.
    unfold maps_switch, isDirectionsArgs, string_arg, optional_string_arg. simpl.
    rewrite Ho, Hd, Hm. by destruct mode.
  - intros origins destinations mode Ho Hd Hm. apply maps_call_tool_render.
    unfold maps_switch. simpl.
    assert (isDistanceMatrixArgs (Some (JObj props)) = true) as ->.
    { unfold isDistanceMatrixArgs.
      rewrite !andb_true_iff, !is_string_array_iff, is_optional_string_iff.
      simpl. rewrite Ho, Hd, Hm. eauto 10. }
    simpl. rewrite (strings_arg_fmap _ _ _ Ho), (strings_arg_fmap _ _ _ Hd).
    unfold optional_string_arg. simpl. rewrite Hm. by destruct mode.
Qed.


End MapsFacts.

(** ** Two edits through Drive *)

Section ThroughDrive.

Context `{Platform}.

(** X21: two edits of one cell through Drive do not pile up: when Drive
    gives back what was uploaded and the uploaded notebook parses back to
    itself, a second [edit_code_cell] at the same index uploads what the
    replacement by the second code gives on the notebook as it first
    was. *)
Theorem edits_through_drive d fileId cellIndex code1 code2 text1 d1 :
  (∀ fileId mimeType body d0 updatedFile d1,
     files_update fileId mimeType body d0 = (inr updatedFile, d1) →
     files_get_media fileId d1 = inr body) →
  (∀ notebookContent nb edited,
     files_get_media fileId d = inr notebookContent →
     JSON_parse notebookContent = Some nb →
     replace_code_cell nb cellIndex code1 = inr edited →
     JSON_parse (JSON_stringify edited) = Some edited) →
  edit_code_cell (mkEditCodeCellArgs fileId cellIndex code1) d = (inr text1, d1) →
  ∃ notebookContent nb edited2,
    files_get_media fileId d = inr notebookContent
    ∧ JSON_parse notebookContent = Some nb
    ∧ replace_code_cell nb cellIndex code2 = inr edited2
    ∧ edit_code_cell (mkEditCodeCellArgs fileId cellIndex code2) d1
      = match files_update fileId notebook_mime (JSON_stringify edited2) d1 with
        | (inl e, d2) =>
            (inl (edit_code_cell_catch (mkEditCodeCellArgs fileId cellIndex code2)
                    (ThrownGaxiosError e)), d2)
        | (inr updatedFile, d2) => (inr (edited_text cellIndex updatedFile), d2)
        end.
Proof.
  intros Hlaw Hround. rewrite edit_code_cell_paths. simpl.
  destruct (cellIndex <? 0)%Z eqn:Hneg; [done|]. apply Z.ltb_ge in Hneg.
  destruct (files_get_media fileId d) as [e|notebookContent] eqn:Hget; [done|].
  destruct (JSON_parse notebookContent) as [nb|] eqn:Hparse; [|done].
  destruct (replace_code_cell nb cellIndex code1) as [error|edited] eqn:Hrun; [done|].
  destruct (files_update _ _ _ _) as [[e|updatedFile] d''] eqn:Hupdate; [done|].
  intros [= _ <-].
  destruct (replace_code_cell_again _ _ _ code2 _ Hrun) as [Hagain [edited2 Hrun2]].
  exists notebookContent, nb, edited2. split_and!; [done..|].
  rewrite (edit_code_cell_run (mkEditCodeCellArgs fileId cellIndex code2) d''
             (JSON_stringify edited) edited); simpl;
    [|done|by eapply Hlaw|by eapply Hround].
  by rewrite Hagain, Hrun2.
Qed.

End ThroughDrive.

Lemma edits_through_drive_witness :
  let d1 := snd (edit_code_cell (H := More.platform)
                   (mkEditCodeCellArgs "nb" 0 "a=2") More.drive0) in
  edit_code_cell (H := More.platform) (mkEditCodeCellArgs "nb" 0 "a=2") More.drive0
  = (inr "Successfully edited cell 0 in notebook 'demo.ipynb' (ID: nb).", d1)
  ∧ ∃ notebookContent nb edited2,
      files_get_media (Platform := More.platform) "nb" More.drive0
      = inr notebookContent
      ∧ JSON_parse (Platform := More.platform) notebookContent = Some nb
      ∧ replace_code_cell (H := More.platform) nb 0 "a=3" = inr edited2
      ∧ edit_code_cell (H := More.platform) (mkEditCodeCellArgs "nb" 0 "a=3") d1
        = match files_update (Platform := More.platform) "nb" notebook_mime
                  (JSON_stringify (Platform := More.platform) edited2) d1 with
          | (inl e, d2) =>
              (inl (edit_code_cell_catch (H := More.platform)
                      (mkEditCodeCellArgs "nb" 0 "a=3") (ThrownGaxiosError e)), d2)
          | (inr updatedFile, d2) =>
              (inr (edited_text (H := More.platform) 0 updatedFile), d2)
          end.
Proof.
  intros d1.
  assert (edit_code_cell (H := More.platform) (mkEditCodeCellArgs "nb" 0 "a=2")
            More.drive0
          = (inr "Successfully edited cell 0 in notebook 'demo.ipynb' (ID: nb).", d1))
    as Hrun by (vm_compute; reflexivity).
  split; [exact Hrun|].
  apply (edits_through_drive (H := More.platform) More.drive0 "nb" 0 "a=2" "a=3"
           "Successfully edited cell 0 in notebook 'demo.ipynb' (ID: nb)." d1
           MoreFacts.get_after_update); [|exact Hrun].
  intros notebookContent nb edited Hget Hparse Hedit.
  vm_compute in Hget. injection Hget as <-.
  vm_compute in Hparse. injection Hparse as <-.
  vm_compute in Hedit. injection Hedit as <-.
  vm_compute. reflexivity.
Defined.

Lemma maps_rejections_witness :
  ("fly" ∉ maps_tools)
  ∧ isGeocodeArgs (Some (JArr [JStr "Paris"])) = false
  ∧ maps_call_tool (H := Demo.platform) (H0 := DemoMaps.client) "fly" None
    = mkMapsResult "Google Maps API Error: MCP error -32601: Unknown tool: fly" true
  ∧ maps_call_tool (H := Demo.platform) (H0 := DemoMaps.client) "geocode"
      (Some (JArr [JStr "Paris"]))
    = mkMapsResult
        "Google Maps API Error: MCP error -32602: Invalid arguments for geocode" true.
Proof.
  assert ("fly" ∉ maps_tools) as Hfly.
  { unfold maps_tools. rewrite !not_elem_of_cons.
    split_and!; [discriminate..|apply not_elem_of_nil]. }
  split; [exact Hfly|]. split; [reflexivity|].
  destruct (maps_rejections (H := Demo.platform) (H0 := DemoMaps.client) "fly" None)
    as [Hunknown _].
  destruct (maps_rejections (H := Demo.platform) (H0 := DemoMaps.client) "geocode"
              (Some (JArr [JStr "Paris"]))) as (_ & Hgeocode & _).
  split.
  - etrans; [exact (Hunknown Hfly)|reflexivity].
  - etrans; [exact (Hgeocode eq_refl)|reflexivity].
Defined.

Lemma maps_calls_witness :
  let props := [ ("origin", JStr "Paris"); ("destination", JStr "Rome");
                 ("mode", JStr "flying"); ("note", JNull) ] in
  Obj.get "origin" props = Some (JStr "Paris")
  ∧ Obj.get "destination" props = Some (JStr "Rome")
  ∧ Obj.get "mode" props = JStr <$> Some "flying"
  ∧ maps_call_tool (H := Demo.platform) (H0 := DemoMaps.client) "get_directions"
      (Some (JObj props))
    = mkMapsResult
        (Demo.stringify (DemoMaps.answer ["Paris"; "Rome"; "flying"])) false.
Proof.
  intros props. do 3 (split; [reflexivity|]).
  destruct (maps_calls (H := Demo.platform) (H0 := DemoMaps.client) props)
    as (_ & _ & Hdirections & _).
  etrans; [exact (Hdirections "Paris" "Rome" (Some "flying") eq_refl eq_refl eq_refl)|].
  reflexivity.
Defined.

